(** * Pyrseas casts: [pyrseas/dbobject/cast.py]

    A shallow embedding of the classes [Cast] and [CastDict] together
    with the properties their specification states about them.

    Modelling conventions.
    - Python text is a [string] of 8-bit characters.  [str.upper] and
      [str.lower] are modelled on ASCII text, where they change the
      ASCII letters and nothing else; a property that depends on them
      assumes [PyString.is_ascii] of the text they are applied to.
    - A Python object is its attribute dictionary ([__dict__]), a finite
      map from attribute names to values.  [setattr] is modelled for the
      names that an instance takes as plain attributes; a property
      about arbitrary entries assumes that no name of the entry starts
      with two underscores ([plain_names]).  The methods are constants
      of the development; [extern_key] reads [objtype] through the
      instance, as the code does.
    - A Python [dict] that is iterated is an association list in
      insertion order whose keys are unique.
    - A Python exception is a value of [exn]; a function that may raise
      returns a [result]; a method that mutates the collection before it
      raises returns the collection together with the [result]. *)

From Stdlib Require Import String Ascii ZArith Lia.
From stdpp Require Import base option list gmap strings pretty.

Local Open Scope Z_scope.
Local Open Scope stdpp_scope.

(** ** Python values and exceptions *)

Inductive pyval :=
| PNone
| PBool (b : bool)
| PInt (z : Z)
| PStr (s : string).

#[global] Instance pyval_eq_dec : EqDecision pyval.
Proof. solve_decision. Defined.

Inductive exn :=
| KeyError (arg : pyval)
| ValueError (msg : string)
| AttributeError (attr : string)
| TypeError
| UnboundLocalError (var : string).

Inductive result (A : Type) :=
| Ok (a : A)
| Raise (e : exn).
Arguments Ok {A} a.
Arguments Raise {A} e.

#[global] Instance result_ret : MRet result := @Ok.
#[global] Instance result_bind : MBind result := λ A B f r,
  match r with
  | Ok a => f a
  | Raise e => Raise e
  end.

(** [str(v)], as used by the [%s] conversions. *)
Definition py_str (v : pyval) : string :=
  match v with
  | PNone => "None"
  | PBool true => "True"
  | PBool false => "False"
  | PInt z => pretty z
  | PStr s => s
  end.

(** ** Python string operations *)

Module PyString.

Definition upper_ascii (c : ascii) : ascii :=
  let n := nat_of_ascii c in
  if ((97 <=? n) && (n <=? 122))%nat then ascii_of_nat (n - 32) else c.

Definition lower_ascii (c : ascii) : ascii :=
  let n := nat_of_ascii c in
  if ((65 <=? n) && (n <=? 90))%nat then ascii_of_nat (n + 32) else c.

(** [s.upper()] and [s.lower()], for an ASCII text [s]. *)
Fixpoint upper (s : string) : string :=
  match s with
  | EmptyString => EmptyString
  | String c s' => String (upper_ascii c) (upper s')
  end.

Fixpoint lower (s : string) : string :=
  match s with
  | EmptyString => EmptyString
  | String c s' => String (lower_ascii c) (lower s')
  end.

(** The text is made of ASCII characters. *)
Fixpoint is_ascii (s : string) : bool :=
  match s with
  | EmptyString => true
  | String c s' => (nat_of_ascii c <? 128)%nat && is_ascii s'
  end.

(** [s.startswith(p)] *)
Fixpoint startswith (p s : string) : bool :=
  match p with
  | EmptyString => true
  | String a p' =>
      match s with
      | EmptyString => false
      | String b s' => if Ascii.eqb a b then startswith p' s' else false
      end
  end.

(** First position at which [pat] occurs in [s], if any. *)
Fixpoint occurrence (pat s : string) : option nat :=
  if startswith pat s then Some 0%nat
  else match s with
       | EmptyString => None
       | String _ s' => S <$> occurrence pat s'
       end.

(** [pat in s] *)
Definition contains (pat s : string) : bool :=
  match occurrence pat s with
  | Some _ => true
  | None => false
  end.

(** [s.find(pat)]: the first position, or [-1]. *)
Definition find (pat s : string) : Z :=
  match occurrence pat s with
  | Some n => Z.of_nat n
  | None => -1
  end.

(** A slice bound, resolved against the length as Python does:
    negative bounds count from the end, and every bound is clipped to
    [0 .. len]. *)
Definition bound (len : nat) (i : Z) : nat :=
  if i <? 0 then Z.to_nat (Z.max 0 (Z.of_nat len + i))
  else Z.to_nat (Z.min i (Z.of_nat len)).

(** [s[lo:hi]] *)
Definition slice (lo hi : Z) (s : string) : string :=
  let a := bound (String.length s) lo in
  let b := bound (String.length s) hi in
  String.substring a (b - a) s.

(** [s[lo:]] *)
Definition slice_from (lo : Z) (s : string) : string :=
  slice lo (Z.of_nat (String.length s)) s.

(** [s[:hi]] *)
Definition slice_to (hi : Z) (s : string) : string :=
  slice 0 hi s.

Fixpoint mem_ascii (c : ascii) (chars : string) : bool :=
  match chars with
  | EmptyString => false
  | String d chars' => if Ascii.eqb c d then true else mem_ascii c chars'
  end.

(** [s.rstrip(chars)]: drop the longest suffix made of characters of
    [chars]. *)
Fixpoint rstrip (chars s : string) : string :=
  match s with
  | EmptyString => EmptyString
  | String c s' =>
      match rstrip chars s' with
      | EmptyString => if mem_ascii c chars then EmptyString else String c EmptyString
      | r => String c r
      end
  end.

End PyString.

Definition nl : string := String (ascii_of_nat 10) EmptyString.

(** ** The class [Cast] *)

Abbreviation Cast := (gmap string pyval).

Definition hasattr (self : Cast) (attr : string) : bool :=
  bool_decide (is_Some (self !! attr)).

Definition getattr (self : Cast) (attr : string) : result pyval :=
  match self !! attr with
  | Some v => Ok v
  | None => Raise (AttributeError attr)
  end.

Definition setattr (self : Cast) (attr : string) (val : pyval) : Cast :=
  <[attr := val]> self.

(** Modelled from the spec: the constructor [DbObject.__init__] is not
    part of the sources at hand; an entity is constructed from its
    identity fields, which [Cast(source=src, target=trg)] stores as the
    attributes [source] and [target]. *)
Definition new_Cast (src trg : string) : Cast :=
  setattr (setattr ∅ "source" (PStr src)) "target" (PStr trg).

Definition objtype : string := "CAST".

Definition CONTEXTS (code : pyval) : result string :=
  match code with
  | PStr "a" => Ok "assignment"
  | PStr "e" => Ok "explicit"
  | PStr "i" => Ok "implicit"
  | v => Raise (KeyError v)
  end.

Definition METHODS (code : pyval) : result string :=
  match code with
  | PStr "f" => Ok "function"
  | PStr "i" => Ok "inout"
  | PStr "b" => Ok "binary coercible"
  | v => Raise (KeyError v)
  end.

(** [self.objtype]: an instance attribute of that name shadows the
    class attribute. *)
Definition self_objtype (self : Cast) : pyval :=
  default (PStr objtype) (self !! "objtype").

(** [v.lower()] *)
Definition py_lower (v : pyval) : result string :=
  match v with
  | PStr s => Ok (PyString.lower s)
  | _ => Raise (AttributeError "lower")
  end.

Definition extern_key (self : Cast) : result string :=
  kind ← py_lower (self_objtype self);
  source ← getattr self "source";
  target ← getattr self "target";
  Ok (kind +:+ " (" +:+ py_str source +:+ " as "
        +:+ py_str target +:+ ")").

Definition identifier (self : Cast) : result string :=
  source ← getattr self "source";
  target ← getattr self "target";
  Ok ("(" +:+ py_str source +:+ " AS " +:+ py_str target +:+ ")").

(** The clause that [create] builds first. *)
Definition with_clause (self : Cast) : result string :=
  let with_clause := nl +:+ "    WITH" in
  if hasattr self "function" then
    function ← getattr self "function";
    Ok (with_clause +:+ " FUNCTION " +:+ py_str function)
  else
    method ← getattr self "method";
    if decide (method = PStr "i") then Ok (with_clause +:+ " INOUT")
    else Ok (with_clause +:+ "OUT FUNCTION").

(** The clause that [create] builds second, from [self.context]. *)
Definition as_clause (context : pyval) : string :=
  if decide (context = PStr "a") then nl +:+ "    AS ASSIGNMENT"
  else if decide (context = PStr "i") then nl +:+ "    AS IMPLICIT"
  else "".

(** The body of [create], before the decorator is applied. *)
Definition create_body (self : Cast) : result (list string) :=
  with_clause ← with_clause self;
  context ← getattr self "context";
  let as_clause := as_clause context in
  source ← getattr self "source";
  target ← getattr self "target";
  Ok ["CREATE CAST (" +:+ py_str source +:+ " AS " +:+ py_str target +:+ ")"
        +:+ with_clause +:+ as_clause].

(** Modelled from the spec: the method [DbObject.comment] is not part
    of the sources at hand; the comment statement of a cast reads
    [COMMENT ON CAST (integer AS text) IS '<description>']. *)
Definition comment (self : Cast) : result string :=
  description ← getattr self "description";
  ident ← identifier self;
  Ok ("COMMENT ON " +:+ objtype +:+ " " +:+ ident +:+ " IS '"
        +:+ py_str description +:+ "'").

(** Modelled from the spec: the decorator [commentable] is not part of
    the sources at hand; it appends a following comment statement when a
    description attribute is present. *)
Definition commentable (func : Cast → result (list string)) (self : Cast)
  : result (list string) :=
  stmts ← func self;
  if hasattr self "description" then
    c ← comment self;
    Ok (stmts ++ [c])
  else Ok stmts.

Definition create : Cast → result (list string) := commentable create_body.

(** ** Insertion-ordered dictionaries *)

Section dict.
Context {K V : Type} `{EqDecision K}.

Fixpoint dict_get (k : K) (d : list (K * V)) : option V :=
  match d with
  | [] => None
  | (k', v) :: d' => if decide (k = k') then Some v else dict_get k d'
  end.

(** [d[k] = v]: an existing key keeps its position, a new key goes to
    the end. *)
Fixpoint dict_set (k : K) (v : V) (d : list (K * V)) : list (K * V) :=
  match d with
  | [] => [(k, v)]
  | (k', v') :: d' =>
      if decide (k = k') then (k, v) :: d' else (k', v') :: dict_set k v d'
  end.

(** [k in d] *)
Definition dict_mem (k : K) (d : list (K * V)) : bool :=
  bool_decide (is_Some (dict_get k d)).

Definition dict_keys (d : list (K * V)) : list K := d.*1.

End dict.

(** ** The class [CastDict] *)

Abbreviation CastKey := (string * string)%type.
Abbreviation CastDict := (list (CastKey * Cast)).

(** The value of one key of the YAML map handed to [from_map]: nothing
    ([None]) or a mapping of attribute names to scalars. *)
Inductive entry :=
| EntryNone
| EntryMap (m : gmap string pyval).

(** [not incast] *)
Definition falsy (incast : entry) : bool :=
  match incast with
  | EntryNone => true
  | EntryMap m => bool_decide (m = ∅)
  end.

Definition items (incast : entry) : gmap string pyval :=
  match incast with
  | EntryNone => ∅
  | EntryMap m => m
  end.

(** [for attr, val in list(incast.items()): setattr(cast, attr, val)],
    for the plain attribute names that [setattr] stores as they are. *)
Definition setattrs (incast : gmap string pyval) (cast : Cast) : Cast :=
  map_fold (λ attr val cast, setattr cast attr val) cast incast.

(** [v[:1].lower()]: the first character in lower case, for an ASCII
    text [v]; a value that is not a text cannot be sliced. *)
Definition first_lower (v : pyval) : result pyval :=
  match v with
  | PStr s => Ok (PStr (PyString.lower (PyString.slice_to 1 s)))
  | _ => Raise TypeError
  end.

(** The test that guards the body of the loop of [from_map]. *)
Definition unrecognized (key : string) : bool :=
  negb (PyString.startswith "cast (" key)
  || negb (PyString.contains " AS " (PyString.upper key))
  || negb (String.eqb (PyString.slice_from (-1) key) ")").

Definition parse_key (key : string) : CastKey :=
  let asloc := PyString.find " AS " (PyString.upper key) in
  let src := PyString.slice 6 asloc key in
  let trg := PyString.slice (asloc + 4) (-1) key in
  (src, trg).

(** One iteration of the loop of [from_map].  The local [cast] is the
    very object stored in the collection, so each mutation of it is
    written through to the collection; the collection is returned also
    when the iteration raises. *)
Definition from_map_entry (key : string) (incast : entry) (self : CastDict)
  : CastDict * result unit :=
  if unrecognized key then
    (self, Raise (KeyError (PStr ("Unrecognized object type: " +:+ key))))
  else
    let '(src, trg) := parse_key key in
    let cast := new_Cast src trg in
    let self := dict_set (src, trg) cast self in
    if falsy incast then
      (self, Raise (ValueError ("Cast '" +:+ PyString.slice_from 5 key
                                  +:+ "' has no specification")))
    else
      let cast := setattrs (items incast) cast in
      let self := dict_set (src, trg) cast self in
      if negb (hasattr cast "context") then
        (self, Raise (ValueError ("Cast '" +:+ PyString.slice_from 5 key
                                    +:+ "' missing context")))
      else if negb (hasattr cast "context") then
        (self, Raise (ValueError ("Cast '" +:+ PyString.slice_from 5 key
                                    +:+ "' missing method")))
      else
        match getattr cast "context" ≫= first_lower with
        | Raise e => (self, Raise e)
        | Ok context =>
            let cast := setattr cast "context" context in
            let self := dict_set (src, trg) cast self in
            match getattr cast "method" ≫= first_lower with
            | Raise e => (self, Raise e)
            | Ok method =>
                let cast := setattr cast "method" method in
                let self := dict_set (src, trg) cast self in
                match items incast !! "description" with
                | Some description =>
                    let cast := setattr cast "description" description in
                    (dict_set (src, trg) cast self, Ok ())
                | None => (self, Ok ())
                end
            end
        end.

(** [CastDict.from_map]; its argument [newdb] is not used by the body.
    The keys of [incasts] are visited in the order of the map, and
    [incasts[key]] is the entry listed with the key. *)
Fixpoint from_map (incasts : list (string * entry)) (self : CastDict)
  : CastDict * result unit :=
  match incasts with
  | [] => (self, Ok ())
  | (key, incast) :: incasts' =>
      match from_map_entry key incast self with
      | (self', Ok _) => from_map incasts' self'
      | (self', Raise e) => (self', Raise e)
      end
  end.

(** *** [Cast.to_map] *)

Section to_map.

(** [DbObject._base_map] is not part of the sources at hand: it is a
    parameter of [to_map]. *)
Variable _base_map : Cast → gmap string pyval.

Definition to_map (self : Cast) : result (gmap string pyval) :=
  let dct := _base_map self in
  context ← getattr self "context";
  word ← CONTEXTS context;
  let dct := <["context" := PStr word]> dct in
  method ← getattr self "method";
  word ← METHODS method;
  let dct := <["method" := PStr word]> dct in
  Ok dct.

End to_map.

(** *** [CastDict._diff_map] *)

(** The objects met by [_diff_map] live in one of two collections, each
    holding one object per key: an object is referred to by the
    collection and the key under which it is stored. *)
Inductive side := Current | Desired.

#[global] Instance side_eq_dec : EqDecision side.
Proof. solve_decision. Defined.

Abbreviation objref := (side * CastKey)%type.

(** What is appended to a statement group: [create] and [diff_map]
    return lists of statements, [drop] returns one statement. *)
Inductive item :=
| Statement (s : string)
| Statements (l : list string).

Abbreviation groups := (list (objref * list item)).

(** [stmts[k].append(x)] on a [defaultdict(list)] *)
Definition stmts_append (k : objref) (x : item) (stmts : groups) : groups :=
  dict_set k (default [] (dict_get k stmts) ++ [x]) stmts.

(** Modelled from the spec: the method [DbObject.drop] is not part of
    the sources at hand; it renders one statement, which for a cast
    reads [DROP CAST (integer AS text)]. *)
Definition drop (self : Cast) : result string :=
  ident ← identifier self;
  Ok ("DROP " +:+ objtype +:+ " " +:+ ident).

Section diff_map.

(** The attribute-level comparison [DbObject.diff_map] of two objects is
    not part of the sources at hand: it is a parameter. *)
Variable object_diff_map : Cast → Cast → result (list string).

(** The first loop.  Besides the groups it returns the binding of the
    local variable [incast], which survives the loop.  The test
    [(src, trg) not in self] and the read [self[(src, trg)]] are the two
    outcomes of one lookup. *)
Fixpoint check_input (self incasts : CastDict) (stmts : groups)
    (incast : option objref) : result (groups * option objref) :=
  match incasts with
  | [] => Ok (stmts, incast)
  | ((src, trg), c) :: incasts' =>
      let incast := (Desired, (src, trg)) in
      x ← match dict_get (src, trg) self with
          | None => create c
          | Some cur => object_diff_map cur c
          end;
      check_input self incasts' (stmts_append incast (Statements x) stmts)
        (Some incast)
  end.

(** The second loop; [todo] is what remains to be visited of [self]. *)
Fixpoint check_existing (incasts todo : CastDict) (stmts : groups)
    (incast : option objref) : result groups :=
  match todo with
  | [] => Ok stmts
  | ((src, trg), cast) :: todo' =>
      if negb (dict_mem (src, trg) incasts) then
        match incast with
        | None => Raise (UnboundLocalError "incast")
        | Some incast =>
            d ← drop cast;
            check_existing incasts todo'
              (stmts_append incast (Statement d) stmts) (Some incast)
        end
      else check_existing incasts todo' stmts incast
  end.

Definition _diff_map (self incasts : CastDict) : result groups :=
  '(stmts, incast) ← check_input self incasts [] None;
  check_existing incasts self stmts incast.

End diff_map.

(** *** [Cast.get_implied_deps] *)

Section get_implied_deps.

(** The entities of the database are of some type [E]; what
    [get_implied_deps] uses of the database and of the module
    [pyrseas.dbobject] is not part of the sources at hand and is taken
    as parameters: the dependencies computed by the parent class, the
    function [split_schema_obj], the dictionary [db.types] and the
    lookup [db._get_by_extkey]. *)
Context {E : Type} `{!EqDecision E, !Countable E}.
Variable super_get_implied_deps : Cast → result (gset E).
Variable split_schema_obj : pyval → result (string * string).
Variable types : gmap (string * string) E.
Variable _get_by_extkey : string → result E.

(** [deps.add(t)] guarded by [if t:], for the outcome [t] of
    [db.types.get]. *)
Definition add_found (t : option E) (deps : gset E) : gset E :=
  match t with
  | Some e => {[ e ]} ∪ deps
  | None => deps
  end.

Definition get_implied_deps (self : Cast) : result (gset E) :=
  deps ← super_get_implied_deps self;
  source ← getattr self "source";
  source ← split_schema_obj source;
  let source := types !! (source.1, PyString.rstrip "[]" source.2) in
  let deps := add_found source deps in
  target ← getattr self "target";
  target ← split_schema_obj target;
  let target := types !! (target.1, PyString.rstrip "[]" target.2) in
  let deps := add_found target deps in
  method ← getattr self "method";
  if decide (method = PStr "f") then
    function ← getattr self "function";
    func ← _get_by_extkey ("function " +:+ py_str function);
    Ok ({[ func ]} ∪ deps)
  else Ok deps.

End get_implied_deps.

(** ** Sample casts and documents *)

Module Samples.

Definition cast_it : Cast :=
  <["context" := PStr "e"]> (<["method" := PStr "f"]>
    (<["function" := PStr "myfunc"]> (new_Cast "integer" "text"))).

Definition cast_bt : Cast :=
  <["context" := PStr "a"]> (<["method" := PStr "b"]>
    (new_Cast "bigint" "text")).

Definition cast_xy : Cast :=
  <["context" := PStr "i"]> (<["method" := PStr "i"]> (new_Cast "x" "y")).

(** A cast whose source type name holds the word [as]. *)
Definition cast_as : Cast :=
  <["context" := PStr "a"]> (<["method" := PStr "b"]>
    (new_Cast "x as y" "text")).

(** An instance of [_base_map]: the attributes without the identity
    fields. *)
Definition strip_keys (self : Cast) : gmap string pyval :=
  delete "source" (delete "target" self).

Definition explicit_function : gmap string pyval :=
  <["method" := PStr "function"]> {[ "context" := PStr "explicit" ]}.

Definition only_context : gmap string pyval :=
  {[ "context" := PStr "explicit" ]}.

Definition only_method : gmap string pyval :=
  {[ "method" := PStr "function" ]}.

Definition with_source : gmap string pyval :=
  <["source" := PStr "bigint"]> explicit_function.

(** An instance of the attribute-level comparison: nothing to alter. *)
Definition nodiff (cur incast : Cast) : result (list string) := Ok [].

Definition key_it : CastKey := ("integer", "text").
Definition key_bt : CastKey := ("bigint", "text").
Definition key_xy : CastKey := ("x", "y").

(** A cast from an array of a user-defined type, and a database that
    knows this type and resolves every function key. *)
Definition cast_arr : Cast :=
  <["context" := PStr "e"]> (<["method" := PStr "f"]>
    (<["function" := PStr "myfunc"]> (new_Cast "mytype[]" "text"))).

Definition split_public (v : pyval) : result (string * string) :=
  match v with
  | PStr s => Ok ("public", s)
  | _ => Raise TypeError
  end.

Definition types_db : gmap (string * string) string :=
  {[ ("public", "mytype") := "type mytype" ]}.

Definition no_deps (self : Cast) : result (gset string) := Ok ∅.

Definition by_extkey (k : string) : result string := Ok k.

(** Two traversal orders of one desired collection, and a current
    collection. *)
Definition desired_bt_xy : CastDict := [(key_bt, cast_bt); (key_xy, cast_xy)].
Definition desired_xy_bt : CastDict := [(key_xy, cast_xy); (key_bt, cast_bt)].
Definition desired_bt_it : CastDict := [(key_bt, cast_bt); (key_it, cast_it)].
Definition current_it : CastDict := [(key_it, cast_it)].

(** The collection after the entry of [cast (bigint AS text)] was
    loaded. *)
Definition loaded_bt : CastDict :=
  [(key_bt, <["method" := PStr "f"]> (<["context" := PStr "e"]>
              (new_Cast "bigint" "text")))].

(** An entry whose context is the YAML null. *)
Definition null_context : gmap string pyval :=
  <["method" := PStr "function"]> {[ "context" := PNone ]}.

(** A lookup by external key that finds nothing. *)
Definition no_extkey (k : string) : result string := Raise (KeyError (PStr k)).

End Samples.

(** ** Vocabulary of the properties *)

(** What a failed load leaves under the key [k]: the object [cast],
    next to everything that [self1] held under other keys. *)
Definition left_behind (self1 self2 : CastDict) (k : CastKey) (cast : Cast)
  : Prop :=
  dict_get k self2 = Some cast
  ∧ ∀ k', k' ≠ k → dict_get k' self2 = dict_get k' self1.

(** The attributes that a round trip through the document is to
    preserve. *)
Definition same_fields (c c' : Cast) : Prop :=
  c' !! "source" = c !! "source"
  ∧ c' !! "target" = c !! "target"
  ∧ c' !! "context" = c !! "context"
  ∧ c' !! "method" = c !! "method"
  ∧ c' !! "description" = c !! "description".

(** The cast [c] survives the round trip: its external key and its
    map, loaded into an empty collection, give one cast with the same
    fields, stored under the identity of [c]. *)
Definition round_trip (_base_map : Cast → gmap string pyval) (c : Cast)
  : Prop :=
  ∃ key dct k c',
    extern_key c = Ok key
    ∧ to_map _base_map c = Ok dct
    ∧ from_map [(key, EntryMap dct)] [] = ([(k, c')], Ok ())
    ∧ c !! "source" = Some (PStr k.1)
    ∧ c !! "target" = Some (PStr k.2)
    ∧ same_fields c c'.

(** The shape of the keys that [extern_key] writes. *)
Definition written_key (s t : string) : string :=
  "cast (" +:+ s +:+ " as " +:+ t +:+ ")".

(** The statements that [create] returns for a cast whose body
    returned [stmt]: the decorator appends the comment statement when
    the cast has a description. *)
Definition created (self : Cast) (source target : pyval) (stmt : string)
  : list string :=
  match self !! "description" with
  | Some description =>
      [stmt;
       "COMMENT ON CAST (" +:+ py_str source +:+ " AS " +:+ py_str target
         +:+ ") IS '" +:+ py_str description +:+ "'"]
  | None => [stmt]
  end.

(** The text up to the clauses of a [CREATE CAST] statement. *)
Definition create_head (source target : pyval) : string :=
  "CREATE CAST (" +:+ py_str source +:+ " AS " +:+ py_str target +:+ ")".

(** The statement group that the first loop of [_diff_map] opens for
    the entry [e] of the desired collection. *)
Definition group_of (object_diff_map : Cast → Cast → result (list string))
    (self : CastDict) (e : CastKey * Cast) : result (objref * list item) :=
  x ← match dict_get e.1 self with
      | None => create e.2
      | Some cur => object_diff_map cur e.2
      end;
  Ok ((Desired, e.1), [Statements x]).

(** The binding of the local variable [incast] after the first loop of
    [_diff_map]: the last desired cast, if there is one. *)
Definition bound_after (incasts : CastDict) (incast : option objref)
  : option objref :=
  foldl (λ _ e, Some (Desired, e.1)) incast incasts.

(** An entry that [from_map] loads: a key of the expected shape with a
    mapping whose [context] and [method] are texts. *)
Definition well_formed_entry (e : string * entry) : Prop :=
  unrecognized e.1 = false
  ∧ ∃ cword mword,
      items e.2 !! "context" = Some (PStr cword)
      ∧ items e.2 !! "method" = Some (PStr mword).

(** No attribute name of the mapping starts with two underscores:
    [setattr] takes each of them as a plain attribute. *)
Definition plain_names (m : gmap string pyval) : bool :=
  map_fold (λ attr _ b, b && negb (PyString.startswith "__" attr)) true m.

(** The value, if it is a text, is ASCII. *)
Definition ascii_code (v : option pyval) : bool :=
  match v with
  | Some (PStr s) => PyString.is_ascii s
  | _ => true
  end.

(** The entries on which the model of [from_map] follows the code: an
    ASCII key, plain attribute names, ASCII words for the context and
    the method. *)
Definition in_scope (e : string * entry) : bool :=
  PyString.is_ascii e.1
  && plain_names (items e.2)
  && ascii_code (items e.2 !! "context")
  && ascii_code (items e.2 !! "method").

(** The last character of [s] is one of [chars]. *)
Fixpoint last_in (chars s : string) : bool :=
  match s with
  | EmptyString => false
  | String c EmptyString => PyString.mem_ascii c chars
  | String _ s' => last_in chars s'
  end.

(** [v] is a text. *)
Definition is_text (v : pyval) : bool :=
  match v with
  | PStr _ => true
  | _ => false
  end.

(** A key with the separator [sep] between the two type names. *)
Definition key_with (s sep t : string) : string :=
  "cast (" +:+ s +:+ sep +:+ t +:+ ")".

(** A code as [from_map] leaves it: a text of at most one character
    that lower-casing does not change. *)
Definition normal_code (v : pyval) : Prop :=
  ∃ c, v = PStr c ∧ (String.length c ≤ 1)%nat ∧ PyString.lower c = c.

(** The attributes of the cast that [from_map] builds from the
    identity [(src, trg)], the mapping [m] of the entry and the two
    normalized codes. *)
Definition loaded_cast (src trg : string) (m : gmap string pyval)
    (context method : pyval) : Cast :=
  <["method" := method]> (<["context" := context]> (m ∪ new_Cast src trg)).

(** Every character of [s] is one of [chars]. *)
Fixpoint all_in (chars s : string) : bool :=
  match s with
  | EmptyString => true
  | String c s' => PyString.mem_ascii c chars && all_in chars s'
  end.

(** [s.endswith(suffix)] *)
Definition endswith (suffix s : string) : bool :=
  String.eqb
    (PyString.slice_from
       (Z.of_nat (String.length s) - Z.of_nat (String.length suffix)) s)
    suffix
  && (String.length suffix <=? String.length s)%nat.

(** * Properties *)

(** ** Strings *)

Section string_facts.

Lemma app_cons c a b : String c a +:+ b = String c (a +:+ b).
Proof. reflexivity. Qed.

Lemma app_empty b : "" +:+ b = b.
Proof. reflexivity. Qed.

Lemma upper_app a b :
  PyString.upper (a +:+ b) = PyString.upper a +:+ PyString.upper b.
Proof.
  induction a as [|c a IH]; [done|].
  rewrite app_cons. simpl. by rewrite IH.
Qed.

Lemma length_upper s : String.length (PyString.upper s) = String.length s.
Proof. induction s as [|c s IH]; simpl; [done | by rewrite IH]. Qed.

Lemma length_app a b :
  String.length (a +:+ b) = (String.length a + String.length b)%nat.
Proof.
  induction a as [|c a IH]; [done|].
  rewrite app_cons. simpl. by rewrite IH.
Qed.

Lemma app_assoc_s a b c : (a +:+ b) +:+ c = a +:+ (b +:+ c).
Proof.
  induction a as [|x a IH]; [done|].
  rewrite !app_cons. by rewrite IH.
Qed.

Lemma startswith_app_long p a b :
  (String.length p ≤ String.length a)%nat →
  PyString.startswith p (a +:+ b) = PyString.startswith p a.
Proof.
  revert a. induction p as [|c p IH]; intros a Hlen; [done|].
  destruct a as [|d a]; simpl in *; [lia|].
  destruct (Ascii.eqb c d); [apply IH; lia | done].
Qed.

Lemma substring_app_skip a b n m :
  String.substring (String.length a + n) m (a +:+ b) = String.substring n m b.
Proof. induction a as [|c a IH]; [done|]. rewrite app_cons. simpl. apply IH. Qed.

Lemma substring_app_take a b :
  String.substring 0 (String.length a) (a +:+ b) = a.
Proof.
  induction a as [|c a IH].
  - rewrite app_empty. by destruct b.
  - rewrite app_cons. simpl. by rewrite IH.
Qed.

Lemma substring_all a : String.substring 0 (String.length a) a = a.
Proof. induction a as [|c a IH]; simpl; [done | by rewrite IH]. Qed.

(** The separator written after a text [u] is the first occurrence of
    [" AS "] when [u] followed by [" AS"] holds none. *)
Lemma occurrence_separator u rest :
  PyString.occurrence " AS " (u +:+ " AS") = None →
  PyString.occurrence " AS " (u +:+ " AS " +:+ rest) = Some (String.length u).
Proof.
  induction u as [|c u IH]; intros Hnone.
  - reflexivity.
  - rewrite app_cons in Hnone |- *.
    cbn [PyString.occurrence] in Hnone |- *.
    destruct (PyString.startswith " AS " (String c (u +:+ " AS"))) eqn:Hp;
      [done|].
    assert (PyString.startswith " AS " (String c (u +:+ " AS " +:+ rest))
            = false) as ->.
    { etrans; [|exact Hp].
      replace (String c (u +:+ " AS " +:+ rest))
        with (String c (u +:+ " AS") +:+ (" " +:+ rest))
        by (rewrite app_cons; by rewrite app_assoc_s).
      apply startswith_app_long. simpl. rewrite length_app. simpl. lia. }
    destruct (PyString.occurrence " AS " (u +:+ " AS")) eqn:Ho; [done|].
    by rewrite IH.
Qed.

Lemma bound_nonneg len i :
  0 ≤ i ≤ Z.of_nat len → PyString.bound len i = Z.to_nat i.
Proof.
  intros Hi. unfold PyString.bound.
  destruct (Z.ltb_spec i 0); [lia|]. f_equal. lia.
Qed.

Lemma bound_neg len i :
  - Z.of_nat len ≤ i < 0 → PyString.bound len i = Z.to_nat (Z.of_nat len + i).
Proof.
  intros Hi. unfold PyString.bound.
  destruct (Z.ltb_spec i 0); [|lia]. f_equal. lia.
Qed.

(** [s[a:b]] for bounds within the text. *)
Lemma slice_inside (a b : nat) s :
  (a ≤ b ≤ String.length s)%nat →
  PyString.slice (Z.of_nat a) (Z.of_nat b) s = String.substring a (b - a) s.
Proof.
  intros Hab. unfold PyString.slice.
  rewrite !bound_nonneg by lia. by rewrite !Nat2Z.id.
Qed.

(** [s[a:-1]] for a bound within the text. *)
Lemma slice_but_last (a : nat) s :
  (a < String.length s)%nat →
  PyString.slice (Z.of_nat a) (-1) s
  = String.substring a (String.length s - 1 - a) s.
Proof.
  intros Ha. unfold PyString.slice.
  rewrite bound_nonneg, bound_neg by lia. rewrite Nat2Z.id.
  do 2 f_equal. lia.
Qed.

Lemma slice_last a : PyString.slice_from (-1) (a +:+ ")") = ")".
Proof.
  unfold PyString.slice_from, PyString.slice.
  rewrite length_app. simpl String.length.
  rewrite bound_neg, bound_nonneg by lia.
  replace (Z.to_nat (Z.of_nat (String.length a + 1) + -1))
    with (String.length a + 0)%nat by lia.
  rewrite substring_app_skip.
  by replace (Z.to_nat (Z.of_nat (String.length a + 1)) - (String.length a + 0))%nat
    with 1%nat by lia.
Qed.

Lemma written_key_occurrence s t :
  PyString.occurrence " AS " (PyString.upper (s +:+ " as")) = None →
  PyString.occurrence " AS " (PyString.upper (written_key s t))
  = Some (6 + String.length s)%nat.
Proof.
  intros Hnone. unfold written_key. rewrite upper_app in Hnone.
  rewrite !upper_app.
  change (PyString.upper "cast (") with "CAST (".
  change (PyString.upper " as ") with " AS ".
  change (PyString.upper " as") with " AS" in Hnone.
  remember (PyString.upper s +:+ " AS " +:+ PyString.upper t
              +:+ PyString.upper ")") as rest eqn:Hrest.
  rewrite !app_cons, app_empty. simpl. subst rest.
  rewrite occurrence_separator by done. simpl. by rewrite length_upper.
Qed.

Lemma written_key_length s t :
  String.length (written_key s t)
  = (11 + String.length s + String.length t)%nat.
Proof. unfold written_key. rewrite !length_app. simpl. lia. Qed.

End string_facts.

(** ** Dictionaries *)

Section dict_facts.
Context {K V : Type} `{EqDecision K}.
Implicit Types (k : K) (v : V) (d : list (K * V)).

Lemma dict_get_set_eq k v d : dict_get k (dict_set k v d) = Some v.
Proof.
  induction d as [|[k' v'] d IH]; simpl.
  - by rewrite decide_True.
  - destruct (decide (k = k')) as [->|Hne]; simpl.
    + by rewrite decide_True.
    + by rewrite decide_False.
Qed.

Lemma dict_get_set_ne k k' v d :
  k ≠ k' → dict_get k' (dict_set k v d) = dict_get k' d.
Proof.
  intros Hne. induction d as [|[k0 v0] d IH]; simpl.
  - by rewrite decide_False.
  - destruct (decide (k = k0)) as [->|Hne0]; simpl.
    + by rewrite !decide_False.
    + by rewrite IH.
Qed.

Lemma dict_set_set k v v' d : dict_set k v' (dict_set k v d) = dict_set k v' d.
Proof.
  induction d as [|[k0 v0] d IH]; simpl.
  - by rewrite decide_True.
  - destruct (decide (k = k0)) as [->|Hne]; simpl.
    + by rewrite decide_True.
    + by rewrite decide_False, IH.
Qed.

(** Storing under a key keeps every key that was there. *)
Lemma dict_set_keeps k k' v d :
  is_Some (dict_get k' d) → is_Some (dict_get k' (dict_set k v d)).
Proof.
  intros Hsome. destruct (decide (k = k')) as [->|Hne].
  - rewrite dict_get_set_eq. eauto.
  - by rewrite dict_get_set_ne.
Qed.

Lemma dict_get_None k d : dict_get k d = None ↔ k ∉ dict_keys d.
Proof.
  unfold dict_keys. induction d as [|[k' v'] d IH]; simpl.
  - split; [intros _; apply not_elem_of_nil | done].
  - rewrite not_elem_of_cons. destruct (decide (k = k')) as [->|Hne].
    + split; [done | by intros [? _]].
    + rewrite IH. tauto.
Qed.

Lemma dict_set_fresh k v d :
  dict_get k d = None → dict_set k v d = d ++ [(k, v)].
Proof.
  induction d as [|[k' v'] d IH]; simpl; [done|].
  destruct (decide (k = k')); [done|]. intros Hd. by rewrite IH.
Qed.

End dict_facts.

(** ** Loading a document: [from_map] *)

Section from_map_facts.

Lemma setattrs_union (incast : gmap string pyval) (cast : Cast) :
  setattrs incast cast = incast ∪ cast.
Proof.
  unfold setattrs.
  apply (map_fold_weak_ind (λ r m, r = m ∪ cast)).
  - by rewrite (left_id_L ∅ (∪)).
  - intros attr val m r Hfresh ->. unfold setattr.
    by rewrite insert_union_l.
Qed.

Lemma from_map_app pre post self :
  from_map (pre ++ post) self =
    match from_map pre self with
    | (self', Ok _) => from_map post self'
    | (self', Raise e) => (self', Raise e)
    end.
Proof.
  revert self. induction pre as [|[key incast] pre IH]; intros self; simpl.
  - done.
  - destruct (from_map_entry key incast self) as [self' [[]|e]]; [apply IH|done].
Qed.

(** What loading does at the entry it stops at. *)
Lemma from_map_stops pre key incast post self self1 self2 e :
  from_map pre self = (self1, Ok ()) →
  from_map_entry key incast self1 = (self2, Raise e) →
  from_map (pre ++ (key, incast) :: post) self = (self2, Raise e).
Proof.
  intros Hpre Hentry. rewrite from_map_app, Hpre. simpl. by rewrite Hentry.
Qed.

Lemma from_map_entry_unrecognized key incast self :
  unrecognized key = true →
  from_map_entry key incast self =
    (self, Raise (KeyError (PStr ("Unrecognized object type: " +:+ key)))).
Proof. intros Hbad. unfold from_map_entry. by rewrite Hbad. Qed.

Lemma unrecognized_spec key :
  unrecognized key = true ↔
    PyString.startswith "cast (" key = false
    ∨ PyString.contains " AS " (PyString.upper key) = false
    ∨ PyString.slice_from (-1) key ≠ ")".
Proof.
  unfold unrecognized. rewrite !orb_true_iff, !negb_true_iff.
  rewrite String.eqb_neq. tauto.
Qed.

(** An entry without a specification: the new cast is stored, then
    loading stops. *)
Lemma from_map_entry_no_specification key incast self :
  unrecognized key = false → falsy incast = true →
  from_map_entry key incast self =
    (dict_set (parse_key key)
       (new_Cast (parse_key key).1 (parse_key key).2) self,
     Raise (ValueError ("Cast '" +:+ PyString.slice_from 5 key
                          +:+ "' has no specification"))).
Proof.
  intros Hkey Hfalsy. unfold from_map_entry. rewrite Hkey.
  destruct (parse_key key) as [src trg]. by rewrite Hfalsy.
Qed.

(** An entry whose mapping has no [context]: the cast is stored with
    the attributes of the mapping applied, then loading stops. *)
Lemma from_map_entry_missing_context key incast self :
  unrecognized key = false → falsy incast = false →
  items incast !! "context" = None →
  from_map_entry key incast self =
    (dict_set (parse_key key)
       (items incast ∪ new_Cast (parse_key key).1 (parse_key key).2) self,
     Raise (ValueError ("Cast '" +:+ PyString.slice_from 5 key
                          +:+ "' missing context"))).
Proof.
  intros Hkey Hfalsy Hctx. unfold from_map_entry. rewrite Hkey.
  destruct (parse_key key) as [src trg]. rewrite Hfalsy. simpl.
  rewrite dict_set_set, setattrs_union.
  assert (hasattr (items incast ∪ new_Cast src trg) "context" = false) as ->.
  { unfold hasattr. apply bool_decide_eq_false. rewrite <- eq_None_not_Some.
    apply lookup_union_None. split; [done|]. by vm_compute. }
  done.
Qed.

(** An entry whose mapping has a textual [context] and no [method]: the
    second test looks at [context] again, and loading stops only when
    the attribute [method] is read. *)
Lemma from_map_entry_missing_method key incast self word :
  unrecognized key = false → falsy incast = false →
  items incast !! "context" = Some (PStr word) →
  items incast !! "method" = None →
  from_map_entry key incast self =
    (dict_set (parse_key key)
       (<["context" := PStr (PyString.lower (PyString.slice_to 1 word))]>
          (items incast ∪ new_Cast (parse_key key).1 (parse_key key).2)) self,
     Raise (AttributeError "method")).
Proof.
  intros Hkey Hfalsy Hctx Hmeth. unfold from_map_entry. rewrite Hkey.
  destruct (parse_key key) as [src trg]. rewrite Hfalsy. simpl.
  rewrite setattrs_union.
  assert ((items incast ∪ new_Cast src trg) !! "context" = Some (PStr word))
    as Hc by (by apply lookup_union_Some_l).
  assert (hasattr (items incast ∪ new_Cast src trg) "context" = true) as ->.
  { unfold hasattr. apply bool_decide_eq_true. rewrite Hc. eauto. }
  simpl. unfold getattr at 1. rewrite Hc. simpl.
  unfold getattr, setattr. rewrite lookup_insert_ne by done.
  assert ((items incast ∪ new_Cast src trg) !! "method" = None) as ->.
  { apply lookup_union_None. split; [done|]. by vm_compute. }
  simpl. by rewrite !dict_set_set.
Qed.

(** The identity attributes of a new cast after the attributes of an
    entry were applied to it. *)
Lemma applied_source (m : gmap string pyval) src trg :
  (m ∪ new_Cast src trg) !! "source" = Some (default (PStr src) (m !! "source")).
Proof.
  rewrite lookup_union. destruct (m !! "source") as [v|]; simpl.
  - by destruct (new_Cast src trg !! "source").
  - by rewrite (left_id_L None union).
Qed.

Lemma applied_target (m : gmap string pyval) src trg :
  (m ∪ new_Cast src trg) !! "target" = Some (default (PStr trg) (m !! "target")).
Proof.
  rewrite lookup_union. destruct (m !! "target") as [v|]; simpl.
  - by destruct (new_Cast src trg !! "target").
  - by rewrite (left_id_L None union).
Qed.

(** The cast that a successful iteration leaves in the collection. *)
Lemma from_map_entry_Ok key incast self self' :
  from_map_entry key incast self = (self', Ok ()) →
  ∃ context method,
    getattr (items incast ∪ new_Cast (parse_key key).1 (parse_key key).2)
      "context" ≫= first_lower = Ok context
    ∧ getattr (<["context" := context]>
                 (items incast ∪ new_Cast (parse_key key).1 (parse_key key).2))
        "method" ≫= first_lower = Ok method
    ∧ self' = dict_set (parse_key key)
        (let cast := <["method" := method]> (<["context" := context]>
           (items incast ∪ new_Cast (parse_key key).1 (parse_key key).2)) in
         match items incast !! "description" with
         | Some description => <["description" := description]> cast
         | None => cast
         end) self.
Proof.
  unfold from_map_entry. destruct (unrecognized key); [done|].
  destruct (parse_key key) as [src trg]. simpl.
  destruct (falsy incast); [done|]. rewrite setattrs_union.
  destruct (hasattr _ "context"); simpl; [|done].
  destruct (getattr _ "context" ≫= first_lower) as [context|] eqn:Hc; [|done].
  unfold setattr.
  destruct (getattr _ "method" ≫= first_lower) as [method|] eqn:Hm; [|done].
  exists context, method. split; [done|]. split; [done|].
  destruct (items incast !! "description"); simplify_eq; by rewrite !dict_set_set.
Qed.

(** A successful iteration, read forwards. *)
Lemma from_map_entry_loads key incast self context method :
  unrecognized key = false → falsy incast = false →
  getattr (items incast ∪ new_Cast (parse_key key).1 (parse_key key).2)
    "context" ≫= first_lower = Ok context →
  getattr (<["context" := context]>
             (items incast ∪ new_Cast (parse_key key).1 (parse_key key).2))
    "method" ≫= first_lower = Ok method →
  from_map_entry key incast self =
    (dict_set (parse_key key)
       (let cast := <["method" := method]> (<["context" := context]>
          (items incast ∪ new_Cast (parse_key key).1 (parse_key key).2)) in
        match items incast !! "description" with
        | Some description => <["description" := description]> cast
        | None => cast
        end) self, Ok ()).
Proof.
  intros Hkey Hfalsy Hc Hm. unfold from_map_entry. rewrite Hkey.
  destruct (parse_key key) as [src trg]. rewrite Hfalsy. simpl in *.
  rewrite setattrs_union.
  assert (hasattr (items incast ∪ new_Cast src trg) "context" = true) as ->.
  { unfold hasattr, getattr in *. apply bool_decide_eq_true.
    destruct ((items incast ∪ new_Cast src trg) !! "context"); [eauto|done]. }
  simpl. rewrite Hc. unfold setattr. rewrite Hm.
  destruct (items incast !! "description"); by rewrite !dict_set_set.
Qed.

Lemma written_key_recognized s t :
  PyString.occurrence " AS " (PyString.upper (s +:+ " as")) = None →
  unrecognized (written_key s t) = false.
Proof.
  intros Hnone. unfold unrecognized, PyString.contains.
  rewrite written_key_occurrence by done.
  assert (PyString.slice_from (-1) (written_key s t) = ")") as ->.
  { unfold written_key. rewrite <- !app_assoc_s. apply slice_last. }
  reflexivity.
Qed.

Lemma written_key_parse s t :
  PyString.occurrence " AS " (PyString.upper (s +:+ " as")) = None →
  parse_key (written_key s t) = (s, t).
Proof.
  intros Hnone. unfold parse_key, PyString.find.
  rewrite written_key_occurrence by done. f_equal.
  - rewrite (slice_inside 6) by (rewrite written_key_length; lia).
    replace (6 + String.length s - 6)%nat with (String.length s) by lia.
    unfold written_key. rewrite !app_cons, app_empty. simpl.
    apply substring_app_take.
  - replace (Z.of_nat (6 + String.length s) + 4)
      with (Z.of_nat (10 + String.length s)) by lia.
    rewrite slice_but_last by (rewrite written_key_length; lia).
    rewrite written_key_length.
    replace (11 + String.length s + String.length t - 1
             - (10 + String.length s))%nat with (String.length t) by lia.
    unfold written_key.
    replace ("cast (" +:+ s +:+ " as " +:+ t +:+ ")")
      with (("cast (" +:+ s +:+ " as ") +:+ (t +:+ ")"))
      by (by rewrite !app_assoc_s).
    replace (10 + String.length s)%nat
      with (String.length ("cast (" +:+ s +:+ " as ") + 0)%nat
      by (rewrite !length_app; simpl; lia).
    rewrite substring_app_skip. apply substring_app_take.
Qed.

(** On the words of [CONTEXTS] and [METHODS], keeping the first letter
    gives back the code. *)
Lemma CONTEXTS_first_lower code :
  code ∈ ["a"; "e"; "i"] →
  ∃ word, CONTEXTS (PStr code) = Ok word
          ∧ first_lower (PStr word) = Ok (PStr code).
Proof.
  rewrite !elem_of_cons, elem_of_nil.
  intros [->|[->|[->|[]]]]; eexists; split; reflexivity.
Qed.

Lemma METHODS_first_lower code :
  code ∈ ["f"; "i"; "b"] →
  ∃ word, METHODS (PStr code) = Ok word
          ∧ first_lower (PStr word) = Ok (PStr code).
Proof.
  rewrite !elem_of_cons, elem_of_nil.
  intros [->|[->|[->|[]]]]; eexists; split; reflexivity.
Qed.

End from_map_facts.

Section from_map_claims.

(** C7. A document key that does not start with [cast (], or is ASCII
    and holds no [" AS "] in any letter case, or does not end with [)]
    makes [from_map] fail.  When the entries before it load, the error
    is the [KeyError] whose message names that key, and the collection
    is the one reached before the key: nothing of its entry was
    applied.  The entries before the key are within the scope of the
    model. *)
Theorem from_map_rejects_malformed_key pre key incast post self :
  forallb in_scope pre = true →
  PyString.startswith "cast (" key = false
  ∨ (PyString.is_ascii key = true
     ∧ PyString.contains " AS " (PyString.upper key) = false)
  ∨ PyString.slice_from (-1) key ≠ ")" →
  (from_map (pre ++ (key, incast) :: post) self).2 ≠ Ok ()
  ∧ ∀ self1, from_map pre self = (self1, Ok ()) →
      from_map (pre ++ (key, incast) :: post) self =
        (self1,
         Raise (KeyError (PStr ("Unrecognized object type: " +:+ key)))).
Proof.
  intros _ Hbad.
  assert (unrecognized key = true) as Hkey.
  { apply unrecognized_spec. destruct Hbad as [?|[[_ ?]|?]]; auto. }
  clear Hbad. rewrite from_map_app.
  destruct (from_map pre self) as [self1 [[]|e]] eqn:Hpre; simpl.
  - rewrite from_map_entry_unrecognized by done. split; [done|].
    by intros ? [= <-].
  - split; [done|]. by intros ? [=].
Qed.

Lemma from_map_rejects_badcast :
  forallb in_scope [] = true
  ∧ PyString.startswith "cast (" "badcast (integer AS text)" = false
  ∧ from_map [("badcast (integer AS text)",
               EntryMap Samples.explicit_function)] [] =
      ([], Raise (KeyError
                    (PStr "Unrecognized object type: badcast (integer AS text)"))).
Proof.
  split; [reflexivity|]. split; [reflexivity|].
  apply (proj2 (from_map_rejects_malformed_key []
                  "badcast (integer AS text)"
                  (EntryMap Samples.explicit_function) [] []
                  eq_refl (or_introl eq_refl)) []).
  reflexivity.
Defined.

(** C3. An entry whose mapping lacks [method] is not refused with the
    message [missing method]: the second test of [from_map] looks at
    [context] again, so loading runs on to the read of [cast.method] and
    fails there with the interpreter's [AttributeError], which names the
    attribute and not the cast.  An entry that lacks [context] is
    refused with the message naming the attribute and the cast. *)
Theorem from_map_missing_method_unnamed :
  from_map [("cast (integer AS text)", EntryMap Samples.only_context)] [] =
    ([(("integer", "text"),
       <["context" := PStr "e"]> (new_Cast "integer" "text"))],
     Raise (AttributeError "method"))
  ∧ from_map [("cast (integer AS text)", EntryMap Samples.only_method)] [] =
    ([(("integer", "text"),
       <["method" := PStr "function"]> (new_Cast "integer" "text"))],
     Raise (ValueError "Cast '(integer AS text)' missing context")).
Proof. split; by vm_compute. Qed.

Lemma left_behind_set self1 k cast : left_behind self1 (dict_set k cast self1) k cast.
Proof.
  split; [apply dict_get_set_eq|].
  intros k' Hne. by apply dict_get_set_ne.
Qed.

(** C10. [from_map] is not atomic.  When the entries before a
    well-formed key load and the entry of that key is empty or has no
    [context], loading fails with a [ValueError] and the collection
    holds the casts loaded so far together with the new cast of the
    failing key, carrying the attributes applied up to the failure; the
    same holds when the entry has a textual [context] and no [method],
    where the failure is the [AttributeError] of the read of
    [method].
    The document is within the scope of the model: ASCII keys, plain
    attribute names, ASCII words for the context and the method. *)
Theorem from_map_not_atomic pre key incast post self self1 :
  forallb in_scope (pre ++ [(key, incast)]) = true →
  from_map pre self = (self1, Ok ()) →
  unrecognized key = false →
  let k := parse_key key in
  let doc := pre ++ (key, incast) :: post in
  (falsy incast = true ∨ items incast !! "context" = None →
   ∃ self2 msg,
     from_map doc self = (self2, Raise (ValueError msg))
     ∧ left_behind self1 self2 k (items incast ∪ new_Cast k.1 k.2))
  ∧ (∀ word,
       items incast !! "context" = Some (PStr word) →
       items incast !! "method" = None →
       ∃ self2,
         from_map doc self = (self2, Raise (AttributeError "method"))
         ∧ left_behind self1 self2 k
             (<["context" := PStr (PyString.lower (PyString.slice_to 1 word))]>
                (items incast ∪ new_Cast k.1 k.2))).
Proof.
  intros _.
  intros Hpre Hkey k doc. split.
  - intros Hcase. destruct (falsy incast) eqn:Hfalsy.
    + eexists _, _. split.
      * eapply from_map_stops; [done|].
        by apply from_map_entry_no_specification.
      * assert (items incast = ∅) as ->.
        { destruct incast as [|m]; simpl in *; [done|].
          by apply bool_decide_eq_true in Hfalsy. }
        rewrite (left_id_L ∅ (∪)). apply left_behind_set.
    + destruct Hcase as [|Hctx]; [done|]. eexists _, _. split.
      * eapply from_map_stops; [done|].
        by apply from_map_entry_missing_context.
      * apply left_behind_set.
  - intros word Hctx Hmeth. eexists. split.
    + eapply from_map_stops; [done|].
      apply from_map_entry_missing_method; [done| |done..].
      destruct incast as [|m]; simpl in *; [done|].
      apply bool_decide_eq_false. by intros ->.
    + apply left_behind_set.
Qed.

Lemma from_map_not_atomic_witness :
  forallb in_scope
    ([("cast (bigint AS text)", EntryMap Samples.explicit_function)]
       ++ [("cast (integer AS text)", EntryMap Samples.only_method)]) = true
  ∧ from_map [("cast (bigint AS text)", EntryMap Samples.explicit_function)] [] =
    (Samples.loaded_bt, Ok ())
  ∧ unrecognized "cast (integer AS text)" = false
  ∧ Samples.only_method !! "context" = None
  ∧ ∃ self2 msg,
      from_map [("cast (bigint AS text)", EntryMap Samples.explicit_function);
                ("cast (integer AS text)", EntryMap Samples.only_method)] [] =
        (self2, Raise (ValueError msg))
      ∧ left_behind Samples.loaded_bt self2
          (parse_key "cast (integer AS text)")
          (Samples.only_method
             ∪ new_Cast (parse_key "cast (integer AS text)").1
                 (parse_key "cast (integer AS text)").2).
Proof.
  assert (from_map [("cast (bigint AS text)",
                     EntryMap Samples.explicit_function)] []
          = (Samples.loaded_bt, Ok ()))
    as Hpre by (vm_compute; reflexivity).
  assert (forallb in_scope
            ([("cast (bigint AS text)", EntryMap Samples.explicit_function)]
               ++ [("cast (integer AS text)", EntryMap Samples.only_method)])
          = true) as Hscope by (vm_compute; reflexivity).
  split; [exact Hscope|].
  split; [exact Hpre|]. split; [reflexivity|]. split; [reflexivity|].
  exact (proj1 (from_map_not_atomic
    [("cast (bigint AS text)", EntryMap Samples.explicit_function)]
    "cast (integer AS text)" (EntryMap Samples.only_method) [] []
    Samples.loaded_bt Hscope Hpre eq_refl) (or_intror eq_refl)).
Defined.

(** C9 (as stated, refuted).  The entry of the key
    [cast (integer AS text)] carries an attribute [source]: the cast
    stored under the identity parsed from the key has that attribute
    value as its source, not the parsed one. *)
Lemma from_map_source_overwritten :
  ∃ self' cast,
    from_map [("cast (integer AS text)", EntryMap Samples.with_source)] []
      = (self', Ok ())
    ∧ parse_key "cast (integer AS text)" = ("integer", "text")
    ∧ dict_get ("integer", "text") self' = Some cast
    ∧ cast !! "source" = Some (PStr "bigint")
    ∧ cast !! "source" ≠ Some (PStr "integer").
Proof.
  eexists _, _. split; [by vm_compute|]. split; [reflexivity|].
  split; [reflexivity|]. split; [by vm_compute|]. by vm_compute.
Qed.

(** C9 (amended).  A cast that [from_map] loads is stored under the
    identity parsed from its key.  Its attributes [source] and [target]
    are the parsed values, unless the mapping of the entry has a key
    [source] or [target]: then the attribute has the value given
    there.
    The document is within the scope of the model: ASCII keys, plain
    attribute names, ASCII words for the context and the method. *)
Theorem from_map_identity pre key incast self self' :
  forallb in_scope (pre ++ [(key, incast)]) = true →
  from_map (pre ++ [(key, incast)]) self = (self', Ok ()) →
  ∃ cast,
    dict_get (parse_key key) self' = Some cast
    ∧ cast !! "source"
      = Some (default (PStr (parse_key key).1) (items incast !! "source"))
    ∧ cast !! "target"
      = Some (default (PStr (parse_key key).2) (items incast !! "target")).
Proof.
  intros _.
  rewrite from_map_app.
  destruct (from_map pre self) as [self1 [[]|e]]; [|done].
  cbn [from_map].
  destruct (from_map_entry key incast self1) as [self2 [[]|e]] eqn:Hentry;
    [|done].
  intros [= <-].
  apply from_map_entry_Ok in Hentry as (context & method & _ & _ & ->).
  eexists. split; [apply dict_get_set_eq|].
  destruct (parse_key key) as [src trg]. cbn [fst snd].
  destruct (items incast !! "description") eqn:Hd;
    rewrite !lookup_insert_ne by done;
    by rewrite applied_source, applied_target.
Qed.

Lemma from_map_identity_witness :
  forallb in_scope ([] ++ [("cast (integer AS text)",
                            EntryMap Samples.explicit_function)]) = true
  ∧ from_map ([] ++ [("cast (integer AS text)",
                    EntryMap Samples.explicit_function)]) []
    = ([(("integer", "text"),
         <["method" := PStr "f"]> (<["context" := PStr "e"]>
           (new_Cast "integer" "text")))], Ok ())
  ∧ ∃ cast,
      dict_get (parse_key "cast (integer AS text)")
        [(("integer", "text"),
          <["method" := PStr "f"]> (<["context" := PStr "e"]>
            (new_Cast "integer" "text")))] = Some cast
      ∧ cast !! "source"
        = Some (default (PStr (parse_key "cast (integer AS text)").1)
                  (Samples.explicit_function !! "source"))
      ∧ cast !! "target"
        = Some (default (PStr (parse_key "cast (integer AS text)").2)
                  (Samples.explicit_function !! "target")).
Proof.
  assert (from_map ([] ++ [("cast (integer AS text)",
                            EntryMap Samples.explicit_function)]) []
          = ([(("integer", "text"),
               <["method" := PStr "f"]> (<["context" := PStr "e"]>
                 (new_Cast "integer" "text")))], Ok ()))
    as Hload by (vm_compute; reflexivity).
  assert (forallb in_scope ([] ++ [("cast (integer AS text)",
                                    EntryMap Samples.explicit_function)])
          = true) as Hscope by (vm_compute; reflexivity).
  split; [exact Hscope|]. split; [exact Hload|].
  exact (from_map_identity [] "cast (integer AS text)"
           (EntryMap Samples.explicit_function) [] _ Hscope Hload).
Defined.




End from_map_claims.

(** ** Rendering: [create] *)

Section create_facts.

Lemma app_empty_r a : a +:+ "" = a.
Proof. induction a as [|c a IH]; [done|]. by rewrite app_cons, IH. Qed.

Lemma getattr_Some (self : Cast) attr v :
  self !! attr = Some v → getattr self attr = Ok v.
Proof. intros Hv. unfold getattr. by rewrite Hv. Qed.

Lemma hasattr_Some (self : Cast) attr v :
  self !! attr = Some v → hasattr self attr = true.
Proof. intros Hv. unfold hasattr. apply bool_decide_eq_true. eauto. Qed.

Lemma hasattr_None (self : Cast) attr :
  self !! attr = None → hasattr self attr = false.
Proof.
  intros Hv. unfold hasattr. apply bool_decide_eq_false.
  rewrite Hv. by intros [? ?].
Qed.

(** The body of [create] once the clause and the attributes it reads
    are known. *)
Lemma create_body_Ok (self : Cast) clause context source target :
  with_clause self = Ok clause →
  self !! "context" = Some context →
  self !! "source" = Some source →
  self !! "target" = Some target →
  create_body self
  = Ok [create_head source target +:+ clause +:+ as_clause context].
Proof.
  intros Hw Hc Hs Ht. unfold create_body.
  rewrite Hw, (getattr_Some _ _ _ Hc), (getattr_Some _ _ _ Hs),
    (getattr_Some _ _ _ Ht).
  unfold create_head. simpl. by rewrite !app_assoc_s.
Qed.

(** The decorator, on a cast whose identity attributes are there. *)
Lemma create_decorated (self : Cast) source target stmt :
  create_body self = Ok [stmt] →
  self !! "source" = Some source →
  self !! "target" = Some target →
  create self = Ok (created self source target stmt).
Proof.
  intros Hbody Hs Ht. unfold create, commentable, created. rewrite Hbody.
  simpl. destruct (self !! "description") as [d|] eqn:Hd.
  - rewrite (hasattr_Some _ _ _ Hd). unfold comment, identifier.
    rewrite (getattr_Some _ _ _ Hd), (getattr_Some _ _ _ Hs),
      (getattr_Some _ _ _ Ht).
    simpl. by rewrite !app_assoc_s.
  - by rewrite (hasattr_None _ _ Hd).
Qed.

Lemma with_clause_function (self : Cast) f :
  self !! "function" = Some f →
  with_clause self = Ok (nl +:+ "    WITH FUNCTION " +:+ py_str f).
Proof.
  intros Hf. unfold with_clause.
  rewrite (hasattr_Some _ _ _ Hf), (getattr_Some _ _ _ Hf). simpl.
  by rewrite !app_assoc_s.
Qed.

Lemma with_clause_method (self : Cast) m :
  self !! "function" = None →
  self !! "method" = Some m →
  with_clause self
  = Ok (if decide (m = PStr "i") then nl +:+ "    WITH INOUT"
        else nl +:+ "    WITHOUT FUNCTION").
Proof.
  intros Hf Hm. unfold with_clause.
  rewrite (hasattr_None _ _ Hf), (getattr_Some _ _ _ Hm). simpl.
  by destruct (decide (m = PStr "i")).
Qed.

End create_facts.

Section create_claims.

(** C6. [create] chooses the clause after [CREATE CAST (s AS t)] in
    this order: a cast with a function attribute gets
    [WITH FUNCTION <name>]; otherwise a cast of method [i] gets
    [WITH INOUT]; otherwise it gets [WITHOUT FUNCTION].  The clause is
    followed by the one drawn from the context. *)
Theorem create_with_clause (self : Cast) (source target context : pyval) :
  self !! "source" = Some source →
  self !! "target" = Some target →
  self !! "context" = Some context →
  (∀ f, self !! "function" = Some f →
     create self
     = Ok (created self source target
             (create_head source target +:+ nl +:+ "    WITH FUNCTION "
                +:+ py_str f +:+ as_clause context)))
  ∧ (self !! "function" = None → self !! "method" = Some (PStr "i") →
     create self
     = Ok (created self source target
             (create_head source target +:+ nl +:+ "    WITH INOUT"
                +:+ as_clause context)))
  ∧ (∀ m, self !! "function" = None → self !! "method" = Some m →
     m ≠ PStr "i" →
     create self
     = Ok (created self source target
             (create_head source target +:+ nl +:+ "    WITHOUT FUNCTION"
                +:+ as_clause context))).
Proof.
  intros Hs Ht Hc. repeat split.
  - intros f Hf. apply create_decorated; [|done..].
    rewrite (create_body_Ok _ _ _ _ _ (with_clause_function _ _ Hf) Hc Hs Ht).
    by rewrite !app_assoc_s.
  - intros Hf Hm. apply create_decorated; [|done..].
    rewrite (create_body_Ok _ _ _ _ _ (with_clause_method _ _ Hf Hm) Hc Hs Ht).
    by rewrite !app_assoc_s.
  - intros m Hf Hm Hne. apply create_decorated; [|done..].
    rewrite (create_body_Ok _ _ _ _ _ (with_clause_method _ _ Hf Hm) Hc Hs Ht).
    rewrite decide_False by done. by rewrite !app_assoc_s.
Qed.

Lemma create_with_clause_witness :
  create Samples.cast_it
  = Ok ["CREATE CAST (integer AS text)" +:+ nl +:+ "    WITH FUNCTION myfunc"]
  ∧ create Samples.cast_xy
    = Ok ["CREATE CAST (x AS y)" +:+ nl +:+ "    WITH INOUT" +:+ nl
            +:+ "    AS IMPLICIT"]
  ∧ create Samples.cast_bt
    = Ok ["CREATE CAST (bigint AS text)" +:+ nl +:+ "    WITHOUT FUNCTION"
            +:+ nl +:+ "    AS ASSIGNMENT"].
Proof.
  split; [|split].
  - exact (proj1 (create_with_clause Samples.cast_it (PStr "integer")
                    (PStr "text") (PStr "e") eq_refl eq_refl eq_refl)
             (PStr "myfunc") eq_refl).
  - exact (proj1 (proj2 (create_with_clause Samples.cast_xy (PStr "x")
                           (PStr "y") (PStr "i") eq_refl eq_refl eq_refl))
             eq_refl eq_refl).
  - refine (proj2 (proj2 (create_with_clause Samples.cast_bt (PStr "bigint")
                            (PStr "text") (PStr "a") eq_refl eq_refl eq_refl))
              (PStr "b") eq_refl eq_refl _).
    discriminate.
Defined.

(** C4 (as stated, refuted).  The cast from [integer] to [text] of
    context [e] with the function [myfunc]: the statement that [create]
    returns ends with the function clause, not with [AS EXPLICIT]. *)
Lemma create_explicit_no_as_clause :
  Samples.cast_it !! "context" = Some (PStr "e")
  ∧ Samples.cast_it !! "function" = Some (PStr "myfunc")
  ∧ ∃ stmt,
      create Samples.cast_it = Ok [stmt]
      ∧ endswith "AS EXPLICIT" stmt = false
      ∧ endswith "WITH FUNCTION myfunc" stmt = true.
Proof.
  split; [by vm_compute|]. split; [by vm_compute|].
  eexists. split; [by vm_compute|]. split; by vm_compute.
Qed.

(** C4 (amended).  For a cast of context [e] with a function
    attribute, [create] returns the statement
    [CREATE CAST (s AS t) WITH FUNCTION f] with no clause after the
    function clause.  Only the contexts [a] and [i] add a clause,
    [AS ASSIGNMENT] and [AS IMPLICIT]; every other context adds
    nothing to the text. *)
Theorem create_explicit (self : Cast) (source target f context : pyval) :
  self !! "source" = Some source →
  self !! "target" = Some target →
  self !! "function" = Some f →
  self !! "context" = Some context →
  (context = PStr "e" →
   create self
   = Ok (created self source target
           (create_head source target +:+ nl +:+ "    WITH FUNCTION "
              +:+ py_str f)))
  ∧ (context = PStr "a" →
     create self
     = Ok (created self source target
             (create_head source target +:+ nl +:+ "    WITH FUNCTION "
                +:+ py_str f +:+ nl +:+ "    AS ASSIGNMENT")))
  ∧ (context = PStr "i" →
     create self
     = Ok (created self source target
             (create_head source target +:+ nl +:+ "    WITH FUNCTION "
                +:+ py_str f +:+ nl +:+ "    AS IMPLICIT")))
  ∧ (context ≠ PStr "a" → context ≠ PStr "i" →
     create self
     = Ok (created self source target
             (create_head source target +:+ nl +:+ "    WITH FUNCTION "
                +:+ py_str f))).
Proof.
  intros Hs Ht Hf Hc.
  pose proof (create_body_Ok _ _ _ _ _ (with_clause_function _ _ Hf) Hc Hs Ht)
    as Hbody.
  assert (∀ clause, as_clause context = clause →
            create self
            = Ok (created self source target
                    (create_head source target +:+ nl
                       +:+ "    WITH FUNCTION " +:+ py_str f +:+ clause)))
    as Hcreate.
  { intros clause <-. apply create_decorated; [|done..].
    rewrite Hbody. by rewrite ?app_assoc_s. }
  assert (∀ other, other ≠ PStr "a" → other ≠ PStr "i" → as_clause other = "")
    as Hnone.
  { intros other Ha Hi. unfold as_clause.
    by rewrite !decide_False by done. }
  repeat split.
  - intros ->. rewrite (Hcreate "") by (by apply Hnone).
    by rewrite app_empty_r.
  - intros ->. by apply Hcreate.
  - intros ->. by apply Hcreate.
  - intros Ha Hi. rewrite (Hcreate "") by (by apply Hnone).
    by rewrite app_empty_r.
Qed.

Lemma create_explicit_witness :
  create Samples.cast_it
  = Ok ["CREATE CAST (integer AS text)" +:+ nl +:+ "    WITH FUNCTION myfunc"]
  ∧ create (<["context" := PStr "a"]> Samples.cast_it)
    = Ok ["CREATE CAST (integer AS text)" +:+ nl +:+ "    WITH FUNCTION myfunc"
            +:+ nl +:+ "    AS ASSIGNMENT"]
  ∧ create (<["context" := PStr "i"]> Samples.cast_it)
    = Ok ["CREATE CAST (integer AS text)" +:+ nl +:+ "    WITH FUNCTION myfunc"
            +:+ nl +:+ "    AS IMPLICIT"].
Proof.
  split; [|split].
  - exact (proj1 (create_explicit Samples.cast_it (PStr "integer")
                    (PStr "text") (PStr "myfunc") (PStr "e")
                    eq_refl eq_refl eq_refl eq_refl) eq_refl).
  - exact (proj1 (proj2 (create_explicit
                    (<["context" := PStr "a"]> Samples.cast_it)
                    (PStr "integer") (PStr "text") (PStr "myfunc") (PStr "a")
                    eq_refl eq_refl eq_refl eq_refl)) eq_refl).
  - exact (proj1 (proj2 (proj2 (create_explicit
                    (<["context" := PStr "i"]> Samples.cast_it)
                    (PStr "integer") (PStr "text") (PStr "myfunc") (PStr "i")
                    eq_refl eq_refl eq_refl eq_refl))) eq_refl).
Defined.

End create_claims.

Section dict_order.
Context {K V : Type} `{EqDecision K}.

Lemma dict_get_Some (k : K) (v : V) d :
  NoDup (dict_keys d) → dict_get k d = Some v ↔ (k, v) ∈ d.
Proof.
  unfold dict_keys. induction d as [|[k' v'] d IH]; simpl; intros Hnd.
  - split; [done | by intros ?%elem_of_nil].
  - apply NoDup_cons in Hnd as [Hnotin Hnd]. rewrite elem_of_cons.
    destruct (decide (k = k')) as [->|Hne].
    + split; [intros [= ->]; by left|].
      intros [[= ->]|Hin]; [done|]. destruct Hnotin.
      apply list_elem_of_fmap. by exists (k', v).
    + rewrite IH by done. split; [by right|].
      intros [[= -> ->]|Hin]; [done|done].
Qed.

(** Looking up does not depend on the order of the entries. *)
Lemma dict_get_Permutation (k : K) (d d' : list (K * V)) :
  NoDup (dict_keys d) → d ≡ₚ d' → dict_get k d = dict_get k d'.
Proof.
  intros Hnd Hperm.
  assert (NoDup (dict_keys d')) as Hnd'
    by (unfold dict_keys in *; by rewrite <- Hperm).
  destruct (dict_get k d) as [v|] eqn:Hd.
  - apply dict_get_Some in Hd; [|done]. symmetry.
    apply dict_get_Some; [done|]. by rewrite <- Hperm.
  - destruct (dict_get k d') as [v'|] eqn:Hd'; [|done].
    apply dict_get_Some in Hd'; [|done]. rewrite <- Hperm in Hd'.
    apply dict_get_Some in Hd'; [|done]. congruence.
Qed.

End dict_order.

(** ** Comparing collections: [_diff_map] *)

Section diff_map_facts.
Variable object_diff_map : Cast → Cast → result (list string).

Lemma dict_get_app_None {K V} `{EqDecision K} (k : K) (d d' : list (K * V)) :
  dict_get k d = None → dict_get k d' = None → dict_get k (d ++ d') = None.
Proof.
  rewrite !dict_get_None. unfold dict_keys. rewrite fmap_app, elem_of_app.
  tauto.
Qed.

Lemma bind_Ok {A B} (a : A) (f : A → result B) : Ok a ≫= f = f a.
Proof. reflexivity. Qed.

Lemma mapM_cons_result {A B} (f : A → result B) x l :
  mapM f (x :: l) = y ← f x; k ← mapM f l; Ok (y :: k).
Proof. reflexivity. Qed.

(** With nothing to drop, the second loop leaves the groups alone. *)
Lemma check_existing_nothing_to_drop incasts todo stmts incast :
  (∀ k, k ∈ dict_keys todo → k ∈ dict_keys incasts) →
  check_existing incasts todo stmts incast = Ok stmts.
Proof.
  induction todo as [|[[src trg] cast] todo IH]; intros Hsub; [done|].
  cbn [check_existing].
  assert (dict_mem (src, trg) incasts = true) as ->.
  { unfold dict_mem. apply bool_decide_eq_true.
    destruct (dict_get (src, trg) incasts) eqn:Hget; [eauto|].
    apply dict_get_None in Hget. destruct Hget. apply Hsub.
    unfold dict_keys. simpl. apply list_elem_of_here. }
  simpl. apply IH. intros k Hk. apply Hsub.
  unfold dict_keys in *. simpl. by apply list_elem_of_further.
Qed.

Lemma check_input_cons self src trg c incasts stmts incast :
  check_input object_diff_map self (((src, trg), c) :: incasts) stmts incast
  = x ← match dict_get (src, trg) self with
        | None => create c
        | Some cur => object_diff_map cur c
        end;
    check_input object_diff_map self incasts
      (stmts_append (Desired, (src, trg)) (Statements x) stmts)
      (Some (Desired, (src, trg))).
Proof. reflexivity. Qed.

Lemma group_of_pair self src trg c :
  group_of object_diff_map self ((src, trg), c)
  = x ← match dict_get (src, trg) self with
        | None => create c
        | Some cur => object_diff_map cur c
        end;
    Ok ((Desired, (src, trg)), [Statements x]).
Proof. reflexivity. Qed.

(** The first loop opens one group per desired cast, after the groups
    that were there, as long as the keys are fresh. *)
Lemma check_input_groups self incasts stmts incast :
  NoDup (dict_keys incasts) →
  (∀ k, k ∈ dict_keys incasts → dict_get (Desired, k) stmts = None) →
  check_input object_diff_map self incasts stmts incast
  = gs ← mapM (group_of object_diff_map self) incasts;
    Ok (stmts ++ gs, bound_after incasts incast).
Proof.
  revert stmts incast.
  induction incasts as [|[[src trg] c] incasts IH]; intros stmts incast Hnd Hfresh.
  - simpl. by rewrite app_nil_r.
  - unfold dict_keys in *. rewrite fmap_cons in Hnd. simpl in Hnd.
    apply NoDup_cons in Hnd as [Hnotin Hnd].
    rewrite check_input_cons, mapM_cons_result, group_of_pair.
    destruct (match dict_get (src, trg) self with
              | Some cur => object_diff_map cur c
              | None => create c
              end) as [x|e] eqn:Hx; [|reflexivity].
    rewrite !bind_Ok.
    assert (stmts_append (Desired, (src, trg)) (Statements x) stmts
            = stmts ++ [((Desired, (src, trg)), [Statements x])]) as ->.
    { unfold stmts_append.
      rewrite (Hfresh (src, trg)) by (simpl; apply list_elem_of_here).
      apply dict_set_fresh. apply Hfresh. simpl. apply list_elem_of_here. }
    rewrite IH; [|done|].
    + destruct (mapM (group_of object_diff_map self) incasts) as [gs|e];
        simpl; [|done].
      by rewrite <- app_assoc.
    + intros k Hk. apply dict_get_app_None.
      * apply Hfresh. simpl. by apply list_elem_of_further.
      * simpl. rewrite decide_False; [done|]. intros [= ->]. done.
Qed.

Lemma diff_map_groups self incasts :
  NoDup (dict_keys incasts) →
  (∀ k, k ∈ dict_keys self → k ∈ dict_keys incasts) →
  _diff_map object_diff_map self incasts
  = mapM (group_of object_diff_map self) incasts.
Proof.
  intros Hnd Hsub. unfold _diff_map.
  rewrite check_input_groups by done.
  destruct (mapM (group_of object_diff_map self) incasts) as [gs|e];
    simpl; [|done].
  by apply check_existing_nothing_to_drop.
Qed.

Lemma groups_Permutation self self' incasts :
  NoDup (dict_keys self) → self ≡ₚ self' →
  mapM (group_of object_diff_map self) incasts
  = mapM (group_of object_diff_map self') incasts.
Proof.
  intros Hnd Hperm. induction incasts as [|[[src trg] c] incasts IH]; [done|].
  rewrite !mapM_cons_result, !group_of_pair, IH.
  by rewrite (dict_get_Permutation (src, trg) self self').
Qed.

(** With an empty desired collection the variable [incast] is never
    bound: the first cast to drop stops the second loop. *)
Lemma diff_map_empty_desired k cast self :
  _diff_map object_diff_map ((k, cast) :: self) []
  = Raise (UnboundLocalError "incast").
Proof. by destruct k. Qed.

End diff_map_facts.


Section diff_map_claims.

(** C1.  The drop statement of a current cast that the desired
    collection lacks is appended to [stmts[incast]], the group of the
    desired cast visited last, not to the group of the dropped cast.
    With an empty desired collection [incast] is unbound and
    [_diff_map] raises instead of returning the drop statement; with the
    desired cast from [bigint] to [text] the drop of the cast from
    [integer] to [text] sits in the group of the former. *)
Theorem diff_map_drop_miskeyed :
  _diff_map Samples.nodiff [(Samples.key_it, Samples.cast_it)] []
  = Raise (UnboundLocalError "incast")
  ∧ _diff_map Samples.nodiff [(Samples.key_it, Samples.cast_it)]
      [(Samples.key_bt, Samples.cast_bt)]
    = Ok [((Desired, Samples.key_bt),
           [Statements ["CREATE CAST (bigint AS text)" +:+ nl
                          +:+ "    WITHOUT FUNCTION" +:+ nl
                          +:+ "    AS ASSIGNMENT"];
            Statement "DROP CAST (integer AS text)"])].
Proof. split; by vm_compute. Qed.




End diff_map_claims.

(** ** Dependencies: [get_implied_deps] *)

Section rstrip_facts.

Lemma app_eq_empty (a b : string) : a +:+ b = "" → a = "" ∧ b = "".
Proof. destruct a; [done|]. by rewrite app_cons. Qed.

(** What [rstrip] removes is a suffix made of the characters given. *)
Lemma rstrip_suffix chars s :
  ∃ suffix, s = PyString.rstrip chars s +:+ suffix
            ∧ all_in chars suffix = true.
Proof.
  induction s as [|c s (suffix & Hs & Hall)]; [by exists ""|].
  simpl. destruct (PyString.rstrip chars s) as [|d r] eqn:Hr.
  - rewrite app_empty in Hs. subst suffix.
    destruct (PyString.mem_ascii c chars) eqn:Hc.
    + exists (String c s). split; [done|]. simpl. by rewrite Hc.
    + by exists s.
  - exists suffix. rewrite !app_cons. split; [|done].
    f_equal. by rewrite Hs at 1.
Qed.

(** What [rstrip] returns does not end with one of the characters. *)
Lemma rstrip_no_trailing chars s r c :
  PyString.rstrip chars s = r +:+ String c "" →
  PyString.mem_ascii c chars = false.
Proof.
  revert r. induction s as [|a s IH]; intros r; simpl.
  - intros Hr. symmetry in Hr. by apply app_eq_empty in Hr as [_ ?].
  - destruct (PyString.rstrip chars s) as [|d r'] eqn:Hr.
    + destruct (PyString.mem_ascii a chars) eqn:Ha.
      * intros Hr'. symmetry in Hr'. by apply app_eq_empty in Hr' as [_ ?].
      * destruct r as [|b r]; [by intros [= <-]|].
        rewrite app_cons. intros [= _ Hr']. symmetry in Hr'.
        by apply app_eq_empty in Hr' as [_ ?].
    + destruct r as [|b r]; [done|].
      rewrite app_cons. intros [= _ Hr']. by apply (IH r).
Qed.

Lemma rstrip_all_in chars s : all_in chars s = true → PyString.rstrip chars s = "".
Proof.
  induction s as [|c s IH]; [done|]. cbn [all_in PyString.rstrip].
  intros [Hc Hs]%andb_true_iff. by rewrite (IH Hs), Hc.
Qed.

(** [rstrip] cuts a text at the end of its stem: what does not end
    with one of the characters, followed by characters of the set
    only. *)
Lemma rstrip_stem chars stem suffix :
  all_in chars suffix = true →
  last_in chars stem = false →
  PyString.rstrip chars (stem +:+ suffix) = stem.
Proof.
  intros Hsuffix. induction stem as [|c stem IH].
  - intros _. rewrite app_empty. by apply rstrip_all_in.
  - rewrite app_cons. cbn [PyString.rstrip]. destruct stem as [|d stem].
    + cbn [last_in]. intros Hc. rewrite app_empty.
      by rewrite (rstrip_all_in _ _ Hsuffix), Hc.
    + intros Hlast. by rewrite (IH Hlast).
Qed.

Lemma rstrip_array_suffix :
  PyString.rstrip "[]" "mytype[]" = "mytype"
  ∧ PyString.rstrip "[]" "integer[][]" = "integer"
  ∧ PyString.rstrip "[]" "text" = "text".
Proof. repeat split. Qed.

End rstrip_facts.

Section get_implied_deps_claims.
Context {E : Type} `{!EqDecision E, !Countable E}.

Lemma elem_of_add_found (t : option E) (deps : gset E) e :
  e ∈ add_found t deps ↔ t = Some e ∨ e ∈ deps.
Proof.
  destruct t as [e'|]; simpl.
  - rewrite elem_of_union, elem_of_singleton. split.
    + intros [->|?]; [by left | by right].
    + intros [[= ->]|?]; [by left | by right].
  - split; [by right | by intros [?|?]].
Qed.

(** C8.  [get_implied_deps] looks the source and the target type up in
    [db.types] under the name stripped of its trailing brackets: for a
    name made of a stem that does not end with a bracket, followed by
    brackets only, the lookup is under the stem.  It adds a type
    exactly when it is found and does not raise when it is not; for a
    cast of method [f] it adds the entity that [_get_by_extkey] returns
    for the function of the cast. *)
Theorem get_implied_deps_types_and_function
    (super_get_implied_deps : Cast → result (gset E))
    (split_schema_obj : pyval → result (string * string))
    (types : gmap (string * string) E)
    (_get_by_extkey : string → result E)
    (self : Cast) (base : gset E) (source target method : pyval)
    (ss sstem sbrackets ts tstem tbrackets : string) :
  super_get_implied_deps self = Ok base →
  self !! "source" = Some source →
  split_schema_obj source = Ok (ss, sstem +:+ sbrackets) →
  last_in "[]" sstem = false →
  all_in "[]" sbrackets = true →
  self !! "target" = Some target →
  split_schema_obj target = Ok (ts, tstem +:+ tbrackets) →
  last_in "[]" tstem = false →
  all_in "[]" tbrackets = true →
  self !! "method" = Some method →
  (method = PStr "f" →
   ∃ function func,
     self !! "function" = Some function
     ∧ _get_by_extkey ("function " +:+ py_str function) = Ok func) →
  ∃ deps,
    get_implied_deps super_get_implied_deps split_schema_obj types
      _get_by_extkey self = Ok deps
    ∧ ∀ e, e ∈ deps ↔
        e ∈ base
        ∨ types !! (ss, sstem) = Some e
        ∨ types !! (ts, tstem) = Some e
        ∨ (method = PStr "f"
           ∧ ∃ function,
               self !! "function" = Some function
               ∧ _get_by_extkey ("function " +:+ py_str function) = Ok e).
Proof.
  intros Hbase Hs Hss Hsl Hsb Ht Hts Htl Htb Hm Hfunc.
  unfold get_implied_deps.
  rewrite Hbase, (getattr_Some _ _ _ Hs), !bind_Ok, Hss, !bind_Ok.
  rewrite (getattr_Some _ _ _ Ht), !bind_Ok, Hts, !bind_Ok.
  rewrite (getattr_Some _ _ _ Hm), !bind_Ok. cbn [fst snd].
  rewrite (rstrip_stem "[]" sstem sbrackets Hsb Hsl).
  rewrite (rstrip_stem "[]" tstem tbrackets Htb Htl).
  destruct (decide (method = PStr "f")) as [Hf|Hf].
  - destruct (Hfunc Hf) as (function & func & Hfn & Hget).
    rewrite (getattr_Some _ _ _ Hfn), !bind_Ok, Hget, !bind_Ok.
    eexists. split; [done|]. intros e.
    rewrite elem_of_union, elem_of_singleton, !elem_of_add_found.
    split.
    + intros [->|[?|[?|?]]]; eauto 10.
    + intros [?|[?|[?|(_ & function' & Hfn' & Hget')]]]; eauto.
      left. congruence.
  - eexists. split; [done|]. intros e. rewrite !elem_of_add_found. split.
    + intros [?|[?|?]]; [right; right; by left | right; by left | by left].
    + intros [?|[?|[?|[? _]]]];
        [right; by right | right; by left | by left | done].
Qed.

End get_implied_deps_claims.

Lemma get_implied_deps_witness :
  Samples.split_public (PStr "mytype[]") = Ok ("public", "mytype" +:+ "[]")
  ∧ last_in "[]" "mytype" = false
  ∧ all_in "[]" "[]" = true
  ∧ ∃ deps : gset string,
      get_implied_deps Samples.no_deps Samples.split_public Samples.types_db
        Samples.by_extkey Samples.cast_arr = Ok deps
      ∧ ∀ e, e ∈ deps ↔
          e ∈ (∅ : gset string)
          ∨ Samples.types_db !! ("public", "mytype") = Some e
          ∨ Samples.types_db !! ("public", "text") = Some e
          ∨ (PStr "f" = PStr "f"
             ∧ ∃ function,
                 Samples.cast_arr !! "function" = Some function
                 ∧ Samples.by_extkey ("function " +:+ py_str function) = Ok e).
Proof.
  split; [reflexivity|]. split; [reflexivity|]. split; [reflexivity|].
  apply (get_implied_deps_types_and_function Samples.no_deps
           Samples.split_public Samples.types_db Samples.by_extkey
           Samples.cast_arr ∅ (PStr "mytype[]") (PStr "text") (PStr "f")
           "public" "mytype" "[]" "public" "text" "");
    try reflexivity.
  intros _. exists (PStr "myfunc"), "function myfunc". split; reflexivity.
Defined.

(** * Further properties of the code *)

(** ** [from_map], entry by entry *)

Section from_map_more.

Lemma from_map_snoc pre key incast self self1 :
  from_map pre self = (self1, Ok ()) →
  from_map (pre ++ [(key, incast)]) self = from_map_entry key incast self1.
Proof.
  intros Hpre. rewrite from_map_app, Hpre. cbn [from_map].
  by destruct (from_map_entry key incast self1) as [self2 [[]|e]].
Qed.

(** Whatever an iteration does, it does it under the identity parsed
    from its key. *)
Lemma from_map_entry_frame key incast self self' r :
  from_map_entry key incast self = (self', r) →
  ∀ k, k ≠ parse_key key → dict_get k self' = dict_get k self.
Proof.
  unfold from_map_entry. destruct (unrecognized key); [by intros [= <- _]|].
  destruct (parse_key key) as [src trg].
  intros Hrun k Hne.
  assert (∀ (c : Cast) (d : CastDict),
            dict_get k (dict_set (src, trg) c d) = dict_get k d) as Hset
    by (intros c d; apply dict_get_set_ne; congruence).
  revert Hrun.
  repeat match goal with
         | |- context [ if ?b then _ else _ ] => destruct b
         | |- context [ match ?x with _ => _ end ] => destruct x
         end;
    intros [= <- _]; by rewrite ?Hset.
Qed.

Lemma from_map_entry_keeps key incast self self' r :
  from_map_entry key incast self = (self', r) →
  ∀ k, is_Some (dict_get k self) → is_Some (dict_get k self').
Proof.
  intros Hrun k Hk. destruct (decide (k = parse_key key)) as [->|Hne].
  - revert Hrun. unfold from_map_entry.
    destruct (unrecognized key); [by intros [= <- _]|].
    destruct (parse_key key) as [src trg].
    repeat match goal with
           | |- context [ if ?b then _ else _ ] => destruct b
           | |- context [ match ?x with _ => _ end ] => destruct x
           end;
      intros [= <- _]; rewrite dict_get_set_eq; eauto.
  - by rewrite (from_map_entry_frame _ _ _ _ _ Hrun).
Qed.

(** X1.  Loading a document, whether it succeeds or raises, never
    removes a cast from the collection and leaves alone every identity
    that is not parsed from one of the keys of the document.
    The document is within the scope of the model: ASCII keys, plain
    attribute names, ASCII words for the context and the method. *)
Theorem from_map_frame incasts self self' r :
  forallb in_scope incasts = true →
  from_map incasts self = (self', r) →
  (∀ k, is_Some (dict_get k self) → is_Some (dict_get k self'))
  ∧ (∀ k, k ∉ (parse_key <$> incasts.*1) →
          dict_get k self' = dict_get k self).
Proof.
  intros _.
  revert self. induction incasts as [|[key incast] incasts IH]; intros self.
  - by intros [= <- _].
  - cbn [from_map].
    destruct (from_map_entry key incast self) as [self1 [[]|e]] eqn:Hentry.
    + intros [Hkeep Hframe]%IH. split.
      * intros k Hk. apply Hkeep. by eapply from_map_entry_keeps.
      * intros k Hk. rewrite !fmap_cons in Hk. cbn [fst] in Hk.
        apply not_elem_of_cons in Hk as [Hne Hk].
        rewrite Hframe by done. by eapply from_map_entry_frame.
    + intros [= <- _]. split.
      * intros k Hk. by eapply from_map_entry_keeps.
      * intros k Hk. rewrite !fmap_cons in Hk. cbn [fst] in Hk.
        apply not_elem_of_cons in Hk as [Hne Hk].
        by eapply from_map_entry_frame.
Qed.

Lemma from_map_frame_witness :
  forallb in_scope
    [("cast (bigint AS text)", EntryMap Samples.explicit_function)] = true
  ∧ from_map [("cast (bigint AS text)", EntryMap Samples.explicit_function)]
    Samples.current_it
  = (Samples.current_it ++ Samples.loaded_bt, Ok ())
  ∧ (∀ k, is_Some (dict_get k Samples.current_it) →
          is_Some (dict_get k (Samples.current_it ++ Samples.loaded_bt)))
  ∧ (∀ k, k ∉ (parse_key <$>
                 [("cast (bigint AS text)",
                   EntryMap Samples.explicit_function)].*1) →
          dict_get k (Samples.current_it ++ Samples.loaded_bt)
          = dict_get k Samples.current_it).
Proof.
  assert (from_map [("cast (bigint AS text)",
                     EntryMap Samples.explicit_function)] Samples.current_it
          = (Samples.current_it ++ Samples.loaded_bt, Ok ())) as Hload
    by (vm_compute; reflexivity).
  assert (forallb in_scope
            [("cast (bigint AS text)", EntryMap Samples.explicit_function)]
          = true) as Hscope by (vm_compute; reflexivity).
  split; [exact Hscope|]. split; [exact Hload|].
  exact (from_map_frame _ _ _ _ Hscope Hload).
Defined.

Lemma dict_keys_set {K V} `{EqDecision K} (k : K) (v : V) d :
  dict_keys (dict_set k v d)
  = if dict_mem k d then dict_keys d else dict_keys d ++ [k].
Proof.
  unfold dict_keys, dict_mem. induction d as [|[k' v'] d IH]; [done|].
  cbn [dict_set dict_get]. destruct (decide (k = k')) as [->|Hne].
  - rewrite bool_decide_eq_true_2 by eauto. done.
  - rewrite !fmap_cons, IH. cbn [fst].
    by destruct (bool_decide (is_Some (dict_get k d))).
Qed.

(** The keys of the collection after one iteration on a well-formed
    key. *)
Lemma from_map_entry_keys key incast self self' r :
  unrecognized key = false →
  from_map_entry key incast self = (self', r) →
  dict_keys self' = dict_keys (dict_set (parse_key key) ∅ self).
Proof.
  intros Hkey. unfold from_map_entry. rewrite Hkey.
  destruct (parse_key key) as [src trg].
  assert (∀ (c : Cast) (d : CastDict),
            dict_keys (dict_set (src, trg) c d)
            = dict_keys (dict_set (src, trg) ∅ d)) as Hset
    by (intros c d; by rewrite !dict_keys_set).
  repeat match goal with
         | |- context [ if ?b then _ else _ ] => destruct b
         | |- context [ match ?x with _ => _ end ] => destruct x
         end;
    intros [= <- _]; by rewrite ?dict_set_set, Hset.
Qed.

(** X2.  An entry with a well-formed key keeps the order of the
    collection: a cast whose identity is already there takes the place
    of the old one, a cast with a new identity goes to the end; this
    holds also when the entry is then refused.
    The document is within the scope of the model: ASCII keys, plain
    attribute names, ASCII words for the context and the method. *)
Theorem from_map_key_order pre key incast self self1 self2 r :
  forallb in_scope (pre ++ [(key, incast)]) = true →
  from_map pre self = (self1, Ok ()) →
  unrecognized key = false →
  from_map (pre ++ [(key, incast)]) self = (self2, r) →
  dict_keys self2
  = if dict_mem (parse_key key) self1 then dict_keys self1
    else dict_keys self1 ++ [parse_key key].
Proof.
  intros _.
  intros Hpre Hkey. rewrite (from_map_snoc _ _ _ _ _ Hpre).
  intros Hentry%from_map_entry_keys; [|done].
  by rewrite Hentry, dict_keys_set.
Qed.

Lemma from_map_key_order_witness :
  forallb in_scope ([] ++ [("cast (bigint as text)",
                            EntryMap Samples.only_method)]) = true
  ∧ from_map [] Samples.desired_bt_it = (Samples.desired_bt_it, Ok ())
  ∧ unrecognized "cast (bigint as text)" = false
  ∧ ∃ self2,
      from_map ([] ++ [("cast (bigint as text)", EntryMap Samples.only_method)])
        Samples.desired_bt_it
      = (self2, Raise (ValueError "Cast '(bigint as text)' missing context"))
      ∧ dict_keys self2 = [Samples.key_bt; Samples.key_it].
Proof.
  assert (forallb in_scope ([] ++ [("cast (bigint as text)",
                                    EntryMap Samples.only_method)]) = true)
    as Hscope by (vm_compute; reflexivity).
  split; [exact Hscope|].
  split; [reflexivity|]. split; [reflexivity|]. eexists.
  assert (from_map ([] ++ [("cast (bigint as text)",
                            EntryMap Samples.only_method)])
            Samples.desired_bt_it
          = (dict_set Samples.key_bt
               (Samples.only_method ∪ new_Cast "bigint" "text")
               Samples.desired_bt_it,
             Raise (ValueError "Cast '(bigint as text)' missing context")))
    as Hload by (vm_compute; reflexivity).
  split; [exact Hload|].
  exact (from_map_key_order [] "cast (bigint as text)"
           (EntryMap Samples.only_method) Samples.desired_bt_it _ _ _
           Hscope eq_refl eq_refl Hload).
Defined.

Lemma substring_0_0 s : String.substring 0 0 s = "".
Proof. by destruct s. Qed.

(** [s[:1]] is the first character of [s], if there is one. *)
Lemma slice_to_1 s :
  PyString.slice_to 1 s
  = match s with
    | EmptyString => EmptyString
    | String c _ => String c EmptyString
    end.
Proof.
  destruct s as [|c s]; [done|].
  unfold PyString.slice_to, PyString.slice.
  rewrite !bound_nonneg by (cbn [String.length]; lia).
  change (Z.to_nat 1 - Z.to_nat 0)%nat with 1%nat.
  change (Z.to_nat 0) with 0%nat. cbn [String.substring].
  by rewrite substring_0_0.
Qed.

Lemma lower_ascii_idemp c :
  PyString.lower_ascii (PyString.lower_ascii c) = PyString.lower_ascii c.
Proof. destruct c as [[] [] [] [] [] [] [] []]; reflexivity. Qed.

Lemma first_lower_normal v w : first_lower v = Ok w → normal_code w.
Proof.
  destruct v as [| | |s]; try done. intros [= <-].
  eexists. split; [done|]. rewrite slice_to_1.
  destruct s as [|c s]; [simpl; split; [lia|done]|].
  cbn [PyString.lower String.length].
  split; [lia|]. by rewrite lower_ascii_idemp.
Qed.

(** Setting the description after the attributes of the entry were
    applied changes nothing. *)
Lemma loaded_cast_description src trg (m : gmap string pyval) context method :
  match m !! "description" with
  | Some description =>
      <["description" := description]> (loaded_cast src trg m context method)
  | None => loaded_cast src trg m context method
  end = loaded_cast src trg m context method.
Proof.
  destruct (m !! "description") as [d|] eqn:Hd; [|done].
  apply insert_id. unfold loaded_cast.
  rewrite !lookup_insert_ne by done. by apply lookup_union_Some_l.
Qed.

(** X3.  [from_map] does not check the words of an entry against the
    tables: with a well-formed key, every mapping whose [context] and
    [method] are texts loads, and the cast stored under the parsed
    identity has the attributes of the mapping, with [context] and
    [method] cut to their first character in lower case.
    The document is within the scope of the model: ASCII keys, plain
    attribute names, ASCII words for the context and the method. *)
Theorem from_map_loads_any_words pre key m self self1 cword mword :
  forallb in_scope (pre ++ [(key, EntryMap m)]) = true →
  from_map pre self = (self1, Ok ()) →
  unrecognized key = false →
  m !! "context" = Some (PStr cword) →
  m !! "method" = Some (PStr mword) →
  from_map (pre ++ [(key, EntryMap m)]) self
  = (dict_set (parse_key key)
       (loaded_cast (parse_key key).1 (parse_key key).2 m
          (PStr (PyString.lower (PyString.slice_to 1 cword)))
          (PStr (PyString.lower (PyString.slice_to 1 mword)))) self1,
     Ok ()).
Proof.
  intros _.
  intros Hpre Hkey Hc Hm. rewrite (from_map_snoc _ _ _ _ _ Hpre).
  rewrite (from_map_entry_loads _ _ _
             (PStr (PyString.lower (PyString.slice_to 1 cword)))
             (PStr (PyString.lower (PyString.slice_to 1 mword)))).
  - cbn [items]. cbv zeta.
    pose proof (loaded_cast_description (parse_key key).1 (parse_key key).2 m
                  (PStr (PyString.lower (PyString.slice_to 1 cword)))
                  (PStr (PyString.lower (PyString.slice_to 1 mword)))) as Hd.
    unfold loaded_cast in *. by rewrite Hd.
  - done.
  - cbn [falsy]. apply bool_decide_eq_false. intros ->.
    by rewrite lookup_empty in Hc.
  - cbn [items]. unfold getattr.
    by rewrite (lookup_union_Some_l _ _ _ _ Hc).
  - cbn [items]. unfold getattr. rewrite lookup_insert_ne by done.
    by rewrite (lookup_union_Some_l _ _ _ _ Hm).
Qed.

Lemma from_map_loads_any_words_witness :
  forallb in_scope
    ([] ++ [("cast (x AS y)",
             EntryMap (<["method" := PStr "Function"]>
                         {[ "context" := PStr "zebra" ]}))]) = true
  ∧ from_map [] [] = ([], Ok ())
  ∧ unrecognized "cast (x AS y)" = false
  ∧ from_map ([] ++ [("cast (x AS y)",
                      EntryMap (<["method" := PStr "Function"]>
                                  {[ "context" := PStr "zebra" ]}))]) []
    = ([(("x", "y"),
         <["method" := PStr "f"]> (<["context" := PStr "z"]>
           (new_Cast "x" "y")))], Ok ()).
Proof.
  assert (forallb in_scope
            ([] ++ [("cast (x AS y)",
                     EntryMap (<["method" := PStr "Function"]>
                                 {[ "context" := PStr "zebra" ]}))]) = true)
    as Hscope by (vm_compute; reflexivity).
  split; [exact Hscope|].
  split; [reflexivity|]. split; [reflexivity|].
  refine (eq_trans (from_map_loads_any_words [] "cast (x AS y)"
            (<["method" := PStr "Function"]> {[ "context" := PStr "zebra" ]})
            [] [] "zebra" "Function" Hscope eq_refl eq_refl eq_refl eq_refl)
            _).
  vm_compute. reflexivity.
Defined.

(** X4.  After an entry was loaded, the attributes [context] and
    [method] of its cast are texts of at most one character without
    upper-case letters, whatever the entry spelled.
    The document is within the scope of the model: ASCII keys, plain
    attribute names, ASCII words for the context and the method. *)
Theorem from_map_codes_normal pre key incast self self1 self2 :
  forallb in_scope (pre ++ [(key, incast)]) = true →
  from_map pre self = (self1, Ok ()) →
  from_map (pre ++ [(key, incast)]) self = (self2, Ok ()) →
  ∃ cast context method,
    dict_get (parse_key key) self2 = Some cast
    ∧ cast !! "context" = Some context ∧ normal_code context
    ∧ cast !! "method" = Some method ∧ normal_code method.
Proof.
  intros _.
  intros Hpre. rewrite (from_map_snoc _ _ _ _ _ Hpre).
  intros (context & method & Hc & Hm & ->)%from_map_entry_Ok.
  eexists _, context, method. split; [apply dict_get_set_eq|].
  destruct (getattr _ "context") as [v|] eqn:Hgc; [|done].
  destruct (getattr _ "method") as [v'|] eqn:Hgm; [|done].
  rewrite bind_Ok in Hc, Hm.
  apply first_lower_normal in Hc, Hm. cbv zeta.
  destruct (items incast !! "description");
    rewrite ?(lookup_insert_ne _ "description") by done;
    rewrite lookup_insert_ne, !lookup_insert_eq by done; done.
Qed.

Lemma from_map_codes_normal_witness :
  forallb in_scope ([] ++ [("cast (integer AS text)",
                            EntryMap Samples.explicit_function)]) = true
  ∧ from_map [] [] = ([], Ok ())
  ∧ from_map ([] ++ [("cast (integer AS text)",
                      EntryMap Samples.explicit_function)]) []
    = ([(Samples.key_it,
         <["method" := PStr "f"]> (<["context" := PStr "e"]>
           (new_Cast "integer" "text")))], Ok ())
  ∧ ∃ cast context method,
      dict_get (parse_key "cast (integer AS text)")
        [(Samples.key_it,
          <["method" := PStr "f"]> (<["context" := PStr "e"]>
            (new_Cast "integer" "text")))] = Some cast
      ∧ cast !! "context" = Some context ∧ normal_code context
      ∧ cast !! "method" = Some method ∧ normal_code method.
Proof.
  assert (from_map ([] ++ [("cast (integer AS text)",
                            EntryMap Samples.explicit_function)]) []
          = ([(Samples.key_it,
               <["method" := PStr "f"]> (<["context" := PStr "e"]>
                 (new_Cast "integer" "text")))], Ok ())) as Hload
    by (vm_compute; reflexivity).
  assert (forallb in_scope ([] ++ [("cast (integer AS text)",
                                    EntryMap Samples.explicit_function)])
          = true) as Hscope by (vm_compute; reflexivity).
  split; [exact Hscope|].
  split; [reflexivity|]. split; [exact Hload|].
  exact (from_map_codes_normal [] "cast (integer AS text)"
           (EntryMap Samples.explicit_function) [] [] _ Hscope eq_refl Hload).
Defined.

Lemma first_lower_not_text v : is_text v = false → first_lower v = Raise TypeError.
Proof. by destruct v. Qed.

(** X5.  A [context] or a [method] that is not a text (a YAML null, a
    number, a truth value) passes the tests for mandatory attributes
    and stops loading with a [TypeError] where its first character is
    taken; the new cast stays in the collection, with the context
    already normalized in the second case.
    The document is within the scope of the model: ASCII keys, plain
    attribute names, ASCII words for the context and the method. *)
Theorem from_map_code_not_text pre key m self self1 v :
  forallb in_scope (pre ++ [(key, EntryMap m)]) = true →
  from_map pre self = (self1, Ok ()) →
  unrecognized key = false →
  is_text v = false →
  (m !! "context" = Some v →
   from_map (pre ++ [(key, EntryMap m)]) self
   = (dict_set (parse_key key)
        (m ∪ new_Cast (parse_key key).1 (parse_key key).2) self1,
      Raise TypeError))
  ∧ (∀ cword,
       m !! "context" = Some (PStr cword) →
       m !! "method" = Some v →
       from_map (pre ++ [(key, EntryMap m)]) self
       = (dict_set (parse_key key)
            (<["context" := PStr (PyString.lower (PyString.slice_to 1 cword))]>
               (m ∪ new_Cast (parse_key key).1 (parse_key key).2)) self1,
          Raise TypeError)).
Proof.
  intros _.
  intros Hpre Hkey Hv. rewrite (from_map_snoc _ _ _ _ _ Hpre).
  unfold from_map_entry. rewrite Hkey.
  destruct (parse_key key) as [src trg]. cbn [fst snd items falsy].
  rewrite setattrs_union. split.
  - intros Hc.
    assert (m ≠ ∅) as Hne by (intros ->; by rewrite lookup_empty in Hc).
    rewrite (bool_decide_eq_false_2 _ Hne).
    assert ((m ∪ new_Cast src trg) !! "context" = Some v) as Hc'
      by (by apply lookup_union_Some_l).
    rewrite (hasattr_Some _ _ _ Hc'). cbn [negb].
    rewrite (getattr_Some _ _ _ Hc'), bind_Ok, (first_lower_not_text _ Hv).
    by rewrite dict_set_set.
  - intros cword Hc Hm.
    assert (m ≠ ∅) as Hne by (intros ->; by rewrite lookup_empty in Hc).
    rewrite (bool_decide_eq_false_2 _ Hne).
    assert ((m ∪ new_Cast src trg) !! "context" = Some (PStr cword)) as Hc'
      by (by apply lookup_union_Some_l).
    rewrite (hasattr_Some _ _ _ Hc'). cbn [negb].
    rewrite (getattr_Some _ _ _ Hc'), bind_Ok. cbn [first_lower].
    unfold setattr.
    assert ((<["context" := PStr (PyString.lower (PyString.slice_to 1 cword))]>
               (m ∪ new_Cast src trg)) !! "method" = Some v) as Hm'.
    { rewrite lookup_insert_ne by done. by apply lookup_union_Some_l. }
    rewrite (getattr_Some _ _ _ Hm'), bind_Ok, (first_lower_not_text _ Hv).
    by rewrite !dict_set_set.
Qed.

Lemma from_map_code_not_text_witness :
  forallb in_scope ([] ++ [("cast (integer AS text)",
                            EntryMap Samples.null_context)]) = true
  ∧ from_map [] [] = ([], Ok ())
  ∧ unrecognized "cast (integer AS text)" = false
  ∧ is_text PNone = false
  ∧ from_map ([] ++ [("cast (integer AS text)",
                      EntryMap Samples.null_context)]) []
    = ([(Samples.key_it,
         Samples.null_context ∪ new_Cast "integer" "text")],
       Raise TypeError).
Proof.
  assert (forallb in_scope ([] ++ [("cast (integer AS text)",
                                    EntryMap Samples.null_context)]) = true)
    as Hscope by (vm_compute; reflexivity).
  split; [exact Hscope|].
  split; [reflexivity|]. split; [reflexivity|]. split; [reflexivity|].
  exact (proj1 (from_map_code_not_text [] "cast (integer AS text)"
                  Samples.null_context [] [] PNone Hscope eq_refl eq_refl
                  eq_refl)
           eq_refl).
Defined.

End from_map_more.

(** ** The grammar of the keys *)

Section key_grammar.

Lemma key_with_occurrence s sep t :
  PyString.upper sep = " AS " →
  PyString.occurrence " AS " (PyString.upper (s +:+ " as")) = None →
  PyString.occurrence " AS " (PyString.upper (key_with s sep t))
  = Some (6 + String.length s)%nat.
Proof.
  intros Hsep Hnone. unfold key_with. rewrite upper_app in Hnone.
  rewrite !upper_app, Hsep.
  change (PyString.upper "cast (") with "CAST (".
  change (PyString.upper " as") with " AS" in Hnone.
  remember (PyString.upper s +:+ " AS " +:+ PyString.upper t
              +:+ PyString.upper ")") as rest eqn:Hrest.
  rewrite !app_cons, app_empty. simpl. subst rest.
  rewrite occurrence_separator by done. simpl. by rewrite length_upper.
Qed.

Lemma key_with_length s sep t :
  PyString.upper sep = " AS " →
  String.length (key_with s sep t)
  = (11 + String.length s + String.length t)%nat.
Proof.
  intros Hsep. unfold key_with. rewrite !length_app.
  rewrite <- (length_upper sep), Hsep. simpl. lia.
Qed.

(** X6.  The separator of a key is matched in any letter case: a key
    [cast (s<sep>t)] whose separator upper-cases to [" AS "] is
    accepted and parsed to the identity [(s, t)], provided [s] followed
    by [" as"] holds no [" AS "] of its own.
    The key is ASCII. *)
Theorem key_with_parse s sep t :
  PyString.is_ascii (key_with s sep t) = true →
  PyString.upper sep = " AS " →
  PyString.contains " AS " (PyString.upper (s +:+ " as")) = false →
  unrecognized (key_with s sep t) = false
  ∧ parse_key (key_with s sep t) = (s, t).
Proof.
  intros _.
  intros Hsep Hcont.
  assert (PyString.occurrence " AS " (PyString.upper (s +:+ " as")) = None)
    as Hnone.
  { unfold PyString.contains in Hcont.
    by destruct (PyString.occurrence " AS " (PyString.upper (s +:+ " as"))). }
  assert (String.length sep = 4%nat) as Hlen
    by (by rewrite <- (length_upper sep), Hsep).
  split.
  - unfold unrecognized, PyString.contains.
    rewrite key_with_occurrence by done.
    assert (PyString.slice_from (-1) (key_with s sep t) = ")") as ->.
    { unfold key_with. rewrite <- !app_assoc_s. apply slice_last. }
    reflexivity.
  - unfold parse_key, PyString.find.
    rewrite key_with_occurrence by done. f_equal.
    + rewrite (slice_inside 6) by (rewrite key_with_length by done; lia).
      replace (6 + String.length s - 6)%nat with (String.length s) by lia.
      unfold key_with. rewrite !app_cons, app_empty. simpl.
      apply substring_app_take.
    + replace (Z.of_nat (6 + String.length s) + 4)
        with (Z.of_nat (10 + String.length s)) by lia.
      rewrite slice_but_last by (rewrite key_with_length by done; lia).
      rewrite key_with_length by done.
      replace (11 + String.length s + String.length t - 1
               - (10 + String.length s))%nat with (String.length t) by lia.
      unfold key_with.
      replace ("cast (" +:+ s +:+ sep +:+ t +:+ ")")
        with (("cast (" +:+ s +:+ sep) +:+ (t +:+ ")"))
        by (by rewrite !app_assoc_s).
      replace (10 + String.length s)%nat
        with (String.length ("cast (" +:+ s +:+ sep) + 0)%nat
        by (rewrite !length_app, Hlen; simpl; lia).
      rewrite substring_app_skip. apply substring_app_take.
Qed.

Lemma key_with_parse_witness :
  PyString.is_ascii (key_with "double precision" " As " "text") = true
  ∧ PyString.upper " As " = " AS "
  ∧ PyString.contains " AS " (PyString.upper ("double precision" +:+ " as"))
    = false
  ∧ unrecognized "cast (double precision As text)" = false
  ∧ parse_key "cast (double precision As text)" = ("double precision", "text").
Proof.
  split; [reflexivity|]. split; [reflexivity|]. split; [reflexivity|].
  exact (key_with_parse "double precision" " As " "text" eq_refl eq_refl
           eq_refl).
Defined.

(** A text in which [" AS "] is written holds an occurrence of it. *)
Lemma occurrence_written a rest :
  is_Some (PyString.occurrence " AS " (a +:+ " AS " +:+ rest)).
Proof.
  induction a as [|c a IH]; [by eexists|].
  rewrite app_cons. cbn [PyString.occurrence].
  destruct (PyString.startswith " AS " (String c (a +:+ " AS " +:+ rest)));
    [by eexists|].
  destruct IH as [n ->]. by eexists.
Qed.

(** X7.  [from_map] accepts every key that [extern_key] writes for a
    cast without an instance attribute [objtype]: the key starts with
    [cast (], holds the separator and ends with [)], whatever the
    source and the target are. *)
Theorem extern_key_recognized (self : Cast) key :
  self !! "objtype" = None →
  extern_key self = Ok key → unrecognized key = false.
Proof.
  intros Hobj. unfold extern_key, self_objtype, getattr. rewrite Hobj.
  cbn [default py_lower]. rewrite bind_Ok.
  destruct (self !! "source") as [source|]; [|done].
  destruct (self !! "target") as [target|]; [|done].
  rewrite !bind_Ok. change (PyString.lower objtype) with "cast".
  intros Hkey.
  assert (key = "cast" +:+ " (" +:+ py_str source +:+ " as "
                  +:+ py_str target +:+ ")") as -> by congruence.
  clear Hkey. unfold unrecognized.
  assert (PyString.contains " AS "
            (PyString.upper ("cast" +:+ " (" +:+ py_str source +:+ " as "
                               +:+ py_str target +:+ ")")) = true) as ->.
  { unfold PyString.contains. rewrite !upper_app.
    change (PyString.upper "cast") with "CAST".
    change (PyString.upper " (") with " (".
    change (PyString.upper " as ") with " AS ".
    destruct (occurrence_written (PyString.upper (py_str source))
                (PyString.upper (py_str target) +:+ PyString.upper ")"))
      as [n Hn].
    remember (PyString.upper (py_str source) +:+ " AS "
                +:+ PyString.upper (py_str target) +:+ PyString.upper ")")
      as rest eqn:Hrest.
    rewrite !app_cons, !app_empty. simpl. by rewrite Hn. }
  assert (PyString.slice_from (-1)
            ("cast" +:+ " (" +:+ py_str source +:+ " as "
               +:+ py_str target +:+ ")") = ")") as ->.
  { rewrite <- !app_assoc_s. apply slice_last. }
  reflexivity.
Qed.

Lemma extern_key_recognized_witness :
  Samples.cast_as !! "objtype" = None
  ∧ extern_key Samples.cast_as = Ok "cast (x as y as text)"
  ∧ unrecognized "cast (x as y as text)" = false.
Proof.
  split; [reflexivity|]. split; [reflexivity|].
  exact (extern_key_recognized Samples.cast_as _ eq_refl eq_refl).
Defined.

End key_grammar.

(** ** Errors of [create], [to_map] and [get_implied_deps] *)

Section attribute_errors.

(** X8.  [create] reads [method] only for a cast without a function
    attribute and [context] for every cast: a cast with neither function
    nor method raises the [AttributeError] of [method], and a cast
    without context whose clause could be built raises the one of
    [context]. *)
Theorem create_missing_attribute (self : Cast) :
  (self !! "function" = None → self !! "method" = None →
   create self = Raise (AttributeError "method"))
  ∧ (is_Some (self !! "function") ∨ is_Some (self !! "method") →
     self !! "context" = None →
     create self = Raise (AttributeError "context")).
Proof.
  split.
  - intros Hf Hm. unfold create, commentable, create_body, with_clause.
    rewrite (hasattr_None _ _ Hf). unfold getattr. by rewrite Hm.
  - intros Hclause Hc. unfold create, commentable, create_body.
    assert (∃ clause, with_clause self = Ok clause) as [clause ->].
    { destruct (self !! "function") as [f|] eqn:Hf.
      - eexists. by apply with_clause_function.
      - destruct Hclause as [[? [=]]|[m Hm]].
        eexists. by apply with_clause_method. }
    rewrite bind_Ok. unfold getattr. by rewrite Hc.
Qed.

Lemma create_missing_attribute_witness :
  create (new_Cast "integer" "text") = Raise (AttributeError "method")
  ∧ create (<["function" := PStr "myfunc"]> (new_Cast "integer" "text"))
    = Raise (AttributeError "context").
Proof.
  split.
  - exact (proj1 (create_missing_attribute (new_Cast "integer" "text"))
             eq_refl eq_refl).
  - refine (proj2 (create_missing_attribute
                     (<["function" := PStr "myfunc"]>
                        (new_Cast "integer" "text"))) _ eq_refl).
    left. by eexists.
Defined.

Lemma CONTEXTS_Ok v word :
  CONTEXTS v = Ok word →
  ∃ code, v = PStr code
          ∧ (code, word) ∈ [("a", "assignment"); ("e", "explicit");
                            ("i", "implicit")].
Proof.
  destruct v as [| | |s]; try done.
  destruct s as [|c [|c' s']]; try done;
    destruct c as [[] [] [] [] [] [] [] []]; try done;
    intros [= <-]; eexists; (split; [done|]);
    repeat first [apply list_elem_of_here | apply list_elem_of_further].
Qed.

Lemma METHODS_Ok v word :
  METHODS v = Ok word →
  ∃ code, v = PStr code
          ∧ (code, word) ∈ [("f", "function"); ("i", "inout");
                            ("b", "binary coercible")].
Proof.
  destruct v as [| | |s]; try done.
  destruct s as [|c [|c' s']]; try done;
    destruct c as [[] [] [] [] [] [] [] []]; try done;
    intros [= <-]; eexists; (split; [done|]);
    repeat first [apply list_elem_of_here | apply list_elem_of_further].
Qed.

Lemma CONTEXTS_Raise v :
  v ∉ [PStr "a"; PStr "e"; PStr "i"] → CONTEXTS v = Raise (KeyError v).
Proof.
  intros Hv. destruct (CONTEXTS v) as [word|e] eqn:Hc.
  - apply CONTEXTS_Ok in Hc as (code & -> & Hin). destruct Hv.
    rewrite !elem_of_cons, elem_of_nil in Hin.
    rewrite !elem_of_cons, elem_of_nil.
    destruct Hin as [[= -> _]|[[= -> _]|[[= -> _]|[]]]]; auto.
  - destruct v as [| | |s]; try (by injection Hc as <-).
    destruct s as [|c [|c' s']]; try (by injection Hc as <-);
      destruct c as [[] [] [] [] [] [] [] []]; try (by injection Hc as <-);
      done.
Qed.

Lemma METHODS_Raise v :
  v ∉ [PStr "f"; PStr "i"; PStr "b"] → METHODS v = Raise (KeyError v).
Proof.
  intros Hv. destruct (METHODS v) as [word|e] eqn:Hc.
  - apply METHODS_Ok in Hc as (code & -> & Hin). destruct Hv.
    rewrite !elem_of_cons, elem_of_nil in Hin.
    rewrite !elem_of_cons, elem_of_nil.
    destruct Hin as [[= -> _]|[[= -> _]|[[= -> _]|[]]]]; auto.
  - destruct v as [| | |s]; try (by injection Hc as <-).
    destruct s as [|c [|c' s']]; try (by injection Hc as <-);
      destruct c as [[] [] [] [] [] [] [] []]; try (by injection Hc as <-);
      done.
Qed.

(** X9.  When [to_map] returns, the context and the method of the cast
    are codes of the two tables, and the map is the base map with the
    two words written over whatever the base map held under [context]
    and [method]. *)
Theorem to_map_words (_base_map : Cast → gmap string pyval) (self : Cast) dct :
  to_map _base_map self = Ok dct →
  ∃ code cword mcode mword,
    self !! "context" = Some (PStr code)
    ∧ (code, cword) ∈ [("a", "assignment"); ("e", "explicit");
                       ("i", "implicit")]
    ∧ self !! "method" = Some (PStr mcode)
    ∧ (mcode, mword) ∈ [("f", "function"); ("i", "inout");
                        ("b", "binary coercible")]
    ∧ dct = <["method" := PStr mword]>
              (<["context" := PStr cword]> (_base_map self)).
Proof.
  unfold to_map, getattr.
  destruct (self !! "context") as [context|]; [|done]. rewrite bind_Ok.
  destruct (CONTEXTS context) as [cword|] eqn:Hc; [|done]. rewrite bind_Ok.
  destruct (self !! "method") as [method|]; [|done]. rewrite bind_Ok.
  destruct (METHODS method) as [mword|] eqn:Hm; [|done]. rewrite bind_Ok.
  intros [= <-].
  apply CONTEXTS_Ok in Hc as (code & -> & Hcode).
  apply METHODS_Ok in Hm as (mcode & -> & Hmcode).
  by exists code, cword, mcode, mword.
Qed.

Lemma to_map_words_witness :
  ∃ code cword mcode mword,
    Samples.cast_bt !! "context" = Some (PStr code)
    ∧ (code, cword) ∈ [("a", "assignment"); ("e", "explicit");
                       ("i", "implicit")]
    ∧ Samples.cast_bt !! "method" = Some (PStr mcode)
    ∧ (mcode, mword) ∈ [("f", "function"); ("i", "inout");
                        ("b", "binary coercible")]
    ∧ <["method" := PStr "binary coercible"]>
        (<["context" := PStr "assignment"]>
           (Samples.strip_keys Samples.cast_bt))
      = <["method" := PStr mword]>
          (<["context" := PStr cword]> (Samples.strip_keys Samples.cast_bt)).
Proof.
  exact (to_map_words Samples.strip_keys Samples.cast_bt _ eq_refl).
Defined.



End attribute_errors.

Section get_implied_deps_more.
Context {E : Type} `{!EqDecision E, !Countable E}.

(** X11.  The function of a cast of method [f] is required: when the
    cast has no function attribute [get_implied_deps] raises the
    [AttributeError] of [function], and when [_get_by_extkey] raises for
    the key [function <name>] that error is the outcome, whether the two
    types were found or not.  A cast without method raises the
    [AttributeError] of [method]. *)
Theorem get_implied_deps_function_required
    (super_get_implied_deps : Cast → result (gset E))
    (split_schema_obj : pyval → result (string * string))
    (types : gmap (string * string) E)
    (_get_by_extkey : string → result E)
    (self : Cast) (base : gset E) (source target : pyval)
    (ss sn ts tn : string) :
  super_get_implied_deps self = Ok base →
  self !! "source" = Some source →
  split_schema_obj source = Ok (ss, sn) →
  self !! "target" = Some target →
  split_schema_obj target = Ok (ts, tn) →
  (self !! "method" = None →
   get_implied_deps super_get_implied_deps split_schema_obj types
     _get_by_extkey self = Raise (AttributeError "method"))
  ∧ (self !! "method" = Some (PStr "f") → self !! "function" = None →
     get_implied_deps super_get_implied_deps split_schema_obj types
       _get_by_extkey self = Raise (AttributeError "function"))
  ∧ (∀ function e,
       self !! "method" = Some (PStr "f") →
       self !! "function" = Some function →
       _get_by_extkey ("function " +:+ py_str function) = Raise e →
       get_implied_deps super_get_implied_deps split_schema_obj types
         _get_by_extkey self = Raise e).
Proof.
  intros Hbase Hs Hss Ht Hts. unfold get_implied_deps.
  rewrite Hbase, (getattr_Some _ _ _ Hs), !bind_Ok, Hss, !bind_Ok.
  rewrite (getattr_Some _ _ _ Ht), !bind_Ok, Hts, !bind_Ok.
  repeat split.
  - intros Hm. unfold getattr. by rewrite Hm.
  - intros Hm Hf. rewrite (getattr_Some _ _ _ Hm), bind_Ok.
    rewrite decide_True by done. unfold getattr. by rewrite Hf.
  - intros function e Hm Hf Hget. rewrite (getattr_Some _ _ _ Hm), bind_Ok.
    rewrite decide_True by done.
    by rewrite (getattr_Some _ _ _ Hf), bind_Ok, Hget.
Qed.

End get_implied_deps_more.

Lemma get_implied_deps_function_required_witness :
  get_implied_deps Samples.no_deps Samples.split_public Samples.types_db
    Samples.no_extkey Samples.cast_arr
  = Raise (KeyError (PStr "function myfunc")).
Proof.
  exact (proj2 (proj2 (get_implied_deps_function_required Samples.no_deps
           Samples.split_public Samples.types_db Samples.no_extkey
           Samples.cast_arr ∅ (PStr "mytype[]") (PStr "text")
           "public" "mytype[]" "public" "text"
           eq_refl eq_refl eq_refl eq_refl eq_refl))
           (PStr "myfunc") (KeyError (PStr "function myfunc"))
           eq_refl eq_refl eq_refl).
Defined.

(** X12.  The name under which [get_implied_deps] looks a type up is the
    type name without a suffix made only of the characters [[] and
    []]: the name looked up never ends with a bracket, and brackets
    inside the name stay. *)
Theorem lookup_name_brackets (name : string) :
  ∃ suffix,
    name = PyString.rstrip "[]" name +:+ suffix
    ∧ all_in "[]" suffix = true
    ∧ ∀ r c, PyString.rstrip "[]" name = r +:+ String c "" →
             c ≠ "["%char ∧ c ≠ "]"%char.
Proof.
  destruct (rstrip_suffix "[]" name) as (suffix & Hname & Hall).
  exists suffix. split; [done|]. split; [done|].
  intros r c Hr%rstrip_no_trailing. split; intros ->; discriminate Hr.
Qed.

(** ** What [_diff_map] drops *)

Section dict_members.
Context {K V : Type} `{EqDecision K}.
Implicit Types (k : K) (v : V) (d : list (K * V)).

Lemma dict_get_elem k v d : dict_get k d = Some v → (k, v) ∈ d.
Proof.
  induction d as [|[k' v'] d IH]; [done|]. cbn [dict_get].
  destruct (decide (k = k')) as [->|Hne].
  - intros [= ->]. apply list_elem_of_here.
  - intros Hget. by apply list_elem_of_further, IH.
Qed.

Lemma dict_set_elem k v k' v' d :
  (k', v') ∈ dict_set k v d → (k', v') = (k, v) ∨ (k', v') ∈ d.
Proof.
  induction d as [|[k0 v0] d IH]; cbn [dict_set].
  - rewrite list_elem_of_singleton. by left.
  - destruct (decide (k = k0)) as [->|Hne]; rewrite !elem_of_cons.
    + intros [?|?]; [by left | right; by right].
    + intros [?|Hin]; [right; by left|].
      destruct (IH Hin); [by left | right; by right].
Qed.

Lemma dict_set_self k v d : (k, v) ∈ dict_set k v d.
Proof.
  induction d as [|[k0 v0] d IH]; cbn [dict_set].
  - apply list_elem_of_here.
  - destruct (decide (k = k0)); [apply list_elem_of_here|].
    by apply list_elem_of_further.
Qed.

End dict_members.

Section diff_map_drops.
Variable object_diff_map : Cast → Cast → result (list string).

Lemma stmts_append_inv r x (stmts : groups) r' grp' y :
  (r', grp') ∈ stmts_append r x stmts → y ∈ grp' →
  y = x ∨ ∃ grp0, (r', grp0) ∈ stmts ∧ y ∈ grp0.
Proof.
  unfold stmts_append. intros [[= -> ->]|Hin]%dict_set_elem Hy.
  - apply elem_of_app in Hy as [Hy|Hy%list_elem_of_singleton]; [|by left].
    right. destruct (dict_get r stmts) as [grp0|] eqn:Hget.
    + exists grp0. split; [by apply dict_get_elem | done].
    + by apply elem_of_nil in Hy.
  - right. by exists grp'.
Qed.

Lemma stmts_append_mono r x (stmts : groups) r' grp0 y :
  (r', grp0) ∈ stmts → y ∈ grp0 →
  ∃ grp', (r', grp') ∈ stmts_append r x stmts ∧ y ∈ grp'.
Proof.
  unfold stmts_append. intros Hin Hy.
  induction stmts as [|[r0 g0] stmts IH]; [by apply elem_of_nil in Hin|].
  cbn [dict_get dict_set]. destruct (decide (r = r0)) as [->|Hne].
  - cbn [default]. apply elem_of_cons in Hin as [[= -> ->]|Hin].
    + exists (g0 ++ [x]). split; [apply list_elem_of_here|].
      apply elem_of_app. by left.
    + exists grp0. split; [by apply list_elem_of_further | done].
  - apply elem_of_cons in Hin as [[= -> ->]|Hin].
    + exists g0. split; [apply list_elem_of_here | done].
    + destruct (IH Hin) as (grp' & Hin' & Hy').
      exists grp'. split; [by apply list_elem_of_further | done].
Qed.

Lemma stmts_append_new r x (stmts : groups) :
  ∃ grp', (r, grp') ∈ stmts_append r x stmts ∧ x ∈ grp'.
Proof.
  eexists. split; [apply dict_set_self|].
  apply elem_of_app. right. apply list_elem_of_here.
Qed.

(** The first loop appends lists of statements only. *)
Lemma check_input_no_statement self incasts stmts incast g incast' :
  check_input object_diff_map self incasts stmts incast = Ok (g, incast') →
  ∀ r grp s, (r, grp) ∈ g → Statement s ∈ grp →
             ∃ grp0, (r, grp0) ∈ stmts ∧ Statement s ∈ grp0.
Proof.
  revert stmts incast.
  induction incasts as [|[[src trg] c] incasts IH]; intros stmts incast.
  - intros [= <- _] r grp s Hin Hs. by exists grp.
  - rewrite check_input_cons.
    destruct (match dict_get (src, trg) self with
              | Some cur => object_diff_map cur c
              | None => create c
              end) as [x|e]; [|done].
    rewrite bind_Ok. intros Hrun r grp s Hin Hs.
    destruct (IH _ _ Hrun r grp s Hin Hs) as (grp1 & Hin1 & Hs1).
    by destruct (stmts_append_inv _ _ _ _ _ _ Hin1 Hs1) as [?|?].
Qed.

Lemma dict_mem_false (k : CastKey) (d : CastDict) :
  dict_mem k d = false ↔ dict_get k d = None.
Proof.
  unfold dict_mem. rewrite bool_decide_eq_false, <- eq_None_not_Some. done.
Qed.

(** The second loop: what was there stays, every absent cast
    contributes its drop statement, and nothing else is added. *)
Lemma check_existing_drops incasts todo stmts incast g :
  check_existing incasts todo stmts incast = Ok g →
  (∀ r grp y, (r, grp) ∈ stmts → y ∈ grp →
              ∃ grp', (r, grp') ∈ g ∧ y ∈ grp')
  ∧ (∀ k cast, (k, cast) ∈ todo → dict_get k incasts = None →
               ∃ stmt r grp, drop cast = Ok stmt ∧ (r, grp) ∈ g
                             ∧ Statement stmt ∈ grp)
  ∧ (∀ r grp s, (r, grp) ∈ g → Statement s ∈ grp →
                (∃ grp0, (r, grp0) ∈ stmts ∧ Statement s ∈ grp0)
                ∨ ∃ k cast, (k, cast) ∈ todo ∧ dict_get k incasts = None
                            ∧ drop cast = Ok s).
Proof.
  revert stmts incast.
  induction todo as [|[[src trg] cast] todo IH]; intros stmts incast.
  - intros [= <-]. split; [by eauto|]. split.
    + by intros k cast Hin%elem_of_nil.
    + intros r grp s Hin Hs. left. by exists grp.
  - cbn [check_existing].
    destruct (dict_mem (src, trg) incasts) eqn:Hmem; cbn [negb].
    + intros (Hmono & Hcompl & Hsound)%IH. split; [done|]. split.
      * intros k c [[= -> ->]|Hin]%elem_of_cons Habs; [|by eauto].
        apply dict_mem_false in Habs. congruence.
      * intros r grp s Hin Hs.
        destruct (Hsound r grp s Hin Hs) as [?|(k & c & Hc & Habs & Hd)];
          [by left|].
        right. exists k, c. split; [by apply list_elem_of_further | done].
    + apply dict_mem_false in Hmem.
      destruct incast as [ref|]; [|done].
      destruct (drop cast) as [d|e] eqn:Hdrop; [|done]. rewrite bind_Ok.
      intros (Hmono & Hcompl & Hsound)%IH. split; [|split].
      * intros r grp y Hin Hy.
        destruct (stmts_append_mono ref (Statement d) stmts r grp y Hin Hy)
          as (grp1 & Hin1 & Hy1).
        by eapply Hmono.
      * intros k c [[= -> ->]|Hin]%elem_of_cons Habs; [|by eauto].
        destruct (stmts_append_new ref (Statement d) stmts)
          as (grp1 & Hin1 & Hy1).
        destruct (Hmono _ _ _ Hin1 Hy1) as (grp2 & Hin2 & Hy2).
        by exists d, ref, grp2.
      * intros r grp s Hin Hs.
        destruct (Hsound r grp s Hin Hs)
          as [(grp1 & Hin1 & Hs1)|(k & c & Hc & Habs & Hd)].
        -- destruct (stmts_append_inv _ _ _ _ _ _ Hin1 Hs1)
             as [[= ->]|?]; [|by left].
           right. exists (src, trg), cast.
           split; [apply list_elem_of_here | done].
        -- right. exists k, c.
           split; [by apply list_elem_of_further | done].
Qed.

(** X13.  When [_diff_map] returns, the single statements in its groups
    are exactly the drop statements of the current casts whose identity
    the desired collection lacks: each such cast has its drop statement
    in some group, and no cast whose identity is desired is dropped. *)
Theorem diff_map_drops (self incasts : CastDict) (g : groups) :
  _diff_map object_diff_map self incasts = Ok g →
  (∀ k cast, (k, cast) ∈ self → dict_get k incasts = None →
             ∃ stmt r grp, drop cast = Ok stmt ∧ (r, grp) ∈ g
                           ∧ Statement stmt ∈ grp)
  ∧ (∀ r grp stmt, (r, grp) ∈ g → Statement stmt ∈ grp →
                   ∃ k cast, (k, cast) ∈ self ∧ dict_get k incasts = None
                             ∧ drop cast = Ok stmt).
Proof.
  unfold _diff_map.
  destruct (check_input object_diff_map self incasts [] None)
    as [[stmts incast]|e] eqn:Hinput; [|done].
  rewrite bind_Ok. intros (_ & Hcompl & Hsound)%check_existing_drops.
  split; [done|]. intros r grp stmt Hin Hs.
  destruct (Hsound r grp stmt Hin Hs) as [(grp0 & Hin0 & Hs0)|?]; [|done].
  destruct (check_input_no_statement _ _ _ _ _ _ Hinput _ _ _ Hin0 Hs0)
    as (grp1 & Hin1%elem_of_nil & _).
  done.
Qed.

End diff_map_drops.

Lemma diff_map_drops_witness :
  _diff_map Samples.nodiff Samples.current_it Samples.desired_bt_xy
  = Ok [((Desired, Samples.key_bt),
         [Statements ["CREATE CAST (bigint AS text)" +:+ nl
                        +:+ "    WITHOUT FUNCTION" +:+ nl
                        +:+ "    AS ASSIGNMENT"]]);
        ((Desired, Samples.key_xy),
         [Statements ["CREATE CAST (x AS y)" +:+ nl +:+ "    WITH INOUT"
                        +:+ nl +:+ "    AS IMPLICIT"];
          Statement "DROP CAST (integer AS text)"])]
  ∧ ∃ stmt r grp,
      drop Samples.cast_it = Ok stmt
      ∧ (r, grp) ∈ [((Desired, Samples.key_bt),
                     [Statements ["CREATE CAST (bigint AS text)" +:+ nl
                                    +:+ "    WITHOUT FUNCTION" +:+ nl
                                    +:+ "    AS ASSIGNMENT"]]);
                    ((Desired, Samples.key_xy),
                     [Statements ["CREATE CAST (x AS y)" +:+ nl
                                    +:+ "    WITH INOUT" +:+ nl
                                    +:+ "    AS IMPLICIT"];
                      Statement "DROP CAST (integer AS text)"])]
      ∧ Statement stmt ∈ grp.
Proof.
  assert (_diff_map Samples.nodiff Samples.current_it Samples.desired_bt_xy
          = Ok [((Desired, Samples.key_bt),
                 [Statements ["CREATE CAST (bigint AS text)" +:+ nl
                                +:+ "    WITHOUT FUNCTION" +:+ nl
                                +:+ "    AS ASSIGNMENT"]]);
                ((Desired, Samples.key_xy),
                 [Statements ["CREATE CAST (x AS y)" +:+ nl
                                +:+ "    WITH INOUT" +:+ nl
                                +:+ "    AS IMPLICIT"];
                  Statement "DROP CAST (integer AS text)"])]) as Hrun
    by (vm_compute; reflexivity).
  split; [exact Hrun|].
  refine (proj1 (diff_map_drops Samples.nodiff Samples.current_it
                   Samples.desired_bt_xy _ Hrun)
            Samples.key_it Samples.cast_it _ eq_refl).
  apply list_elem_of_here.
Defined.

(** ** Which documents load *)

Section from_map_acceptance.

Lemma from_map_entry_accepts key incast self :
  well_formed_entry (key, incast) →
  ∃ self', from_map_entry key incast self = (self', Ok ()).
Proof.
  intros (Hkey & cword & mword & Hc & Hm). cbn [fst snd] in *. eexists.
  apply (from_map_entry_loads _ _ _
           (PStr (PyString.lower (PyString.slice_to 1 cword)))
           (PStr (PyString.lower (PyString.slice_to 1 mword)))).
  - done.
  - destruct incast as [|m]; [done|]. cbn [falsy items] in *.
    apply bool_decide_eq_false. intros ->. by rewrite lookup_empty in Hc.
  - unfold getattr. by rewrite (lookup_union_Some_l _ _ _ _ Hc).
  - unfold getattr. rewrite lookup_insert_ne by done.
    by rewrite (lookup_union_Some_l _ _ _ _ Hm).
Qed.

Lemma first_lower_Ok v w : first_lower v = Ok w → ∃ s, v = PStr s.
Proof. destruct v; try done. by eexists. Qed.

Lemma from_map_entry_accepted key incast self self' :
  from_map_entry key incast self = (self', Ok ()) →
  well_formed_entry (key, incast).
Proof.
  intros Hrun. split.
  - cbn [fst]. unfold from_map_entry in Hrun.
    by destruct (unrecognized key).
  - cbn [snd].
    apply from_map_entry_Ok in Hrun as (context & method & Hc & Hm & _).
    destruct (parse_key key) as [src trg]. cbn [fst snd] in *.
    unfold getattr in Hc, Hm.
    destruct ((items incast ∪ new_Cast src trg) !! "context")
      as [v|] eqn:Hlc; [|done].
    rewrite bind_Ok in Hc.
    destruct (first_lower_Ok _ _ Hc) as [cword ->].
    rewrite lookup_insert_ne in Hm by done.
    destruct ((items incast ∪ new_Cast src trg) !! "method")
      as [v|] eqn:Hlm; [|done].
    rewrite bind_Ok in Hm.
    destruct (first_lower_Ok _ _ Hm) as [mword ->].
    exists cword, mword.
    apply lookup_union_Some_raw in Hlc as [?|[_ Hn]];
      [|by vm_compute in Hn].
    apply lookup_union_Some_raw in Hlm as [?|[_ Hn]];
      [|by vm_compute in Hn].
    done.
Qed.

(** X14.  A document loads without error exactly when every key has the
    shape [cast (... AS ...)] and every entry is a mapping with a
    textual [context] and a textual [method]; nothing else of an entry
    is checked.
    The document is within the scope of the model: ASCII keys, plain
    attribute names, ASCII words for the context and the method. *)
Theorem from_map_succeeds_iff incasts self :
  forallb in_scope incasts = true →
  (from_map incasts self).2 = Ok () ↔ Forall well_formed_entry incasts.
Proof.
  intros _.
  revert self. induction incasts as [|[key incast] incasts IH]; intros self.
  - split; [by constructor | done].
  - cbn [from_map]. split.
    + destruct (from_map_entry key incast self) as [self1 [[]|e]] eqn:Hentry;
        [|done].
      intros Hrest%IH. constructor; [|done].
      by eapply from_map_entry_accepted.
    + intros [Hwf Hrest]%Forall_cons.
      destruct (from_map_entry_accepts key incast self Hwf) as [self1 ->].
      by apply IH.
Qed.

Lemma from_map_succeeds_iff_witness :
  forallb in_scope
    [("cast (integer AS text)", EntryMap Samples.explicit_function);
     ("cast (bigint AS text)", EntryMap Samples.only_context)] = true
  ∧ ((from_map
        [("cast (integer AS text)", EntryMap Samples.explicit_function);
         ("cast (bigint AS text)", EntryMap Samples.only_context)] []).2
     = Ok ()
     ↔ Forall well_formed_entry
         [("cast (integer AS text)", EntryMap Samples.explicit_function);
          ("cast (bigint AS text)", EntryMap Samples.only_context)]).
Proof.
  assert (forallb in_scope
            [("cast (integer AS text)", EntryMap Samples.explicit_function);
             ("cast (bigint AS text)", EntryMap Samples.only_context)] = true)
    as Hscope by (vm_compute; reflexivity).
  split; [exact Hscope|].
  exact (from_map_succeeds_iff _ [] Hscope).
Defined.

End from_map_acceptance.

(** ** The keys of the statement groups *)

Section diff_map_keys.
Variable object_diff_map : Cast → Cast → result (list string).
Variable Q : CastKey → Prop.

(** A reference to a desired cast whose identity satisfies [Q]. *)
Let desired_ref (r : objref) : Prop := ∃ k, r = (Desired, k) ∧ Q k.

Lemma stmts_append_keys r x (stmts : groups) :
  desired_ref r →
  (∀ r' grp, (r', grp) ∈ stmts → desired_ref r') →
  ∀ r' grp, (r', grp) ∈ stmts_append r x stmts → desired_ref r'.
Proof.
  intros Hr Hall r' grp [[= -> _]|Hin]%dict_set_elem; [done|].
  by eapply Hall.
Qed.

Lemma check_input_keys self incasts stmts incast g incast' :
  (∀ k, k ∈ dict_keys incasts → Q k) →
  (∀ r grp, (r, grp) ∈ stmts → desired_ref r) →
  (∀ r, incast = Some r → desired_ref r) →
  check_input object_diff_map self incasts stmts incast = Ok (g, incast') →
  (∀ r grp, (r, grp) ∈ g → desired_ref r)
  ∧ (∀ r, incast' = Some r → desired_ref r).
Proof.
  revert stmts incast.
  induction incasts as [|[[src trg] c] incasts IH];
    intros stmts incast HQ Hstmts Hincast.
  - by intros [= <- <-].
  - rewrite check_input_cons.
    destruct (match dict_get (src, trg) self with
              | Some cur => object_diff_map cur c
              | None => create c
              end) as [x|e]; [|done].
    rewrite bind_Ok.
    assert (desired_ref (Desired, (src, trg))) as Href.
    { exists (src, trg). split; [done|]. apply HQ.
      unfold dict_keys. rewrite fmap_cons. apply list_elem_of_here. }
    apply IH.
    + intros k Hk. apply HQ. unfold dict_keys in *. rewrite fmap_cons.
      by apply list_elem_of_further.
    + by apply stmts_append_keys.
    + by intros r [= <-].
Qed.

Lemma check_existing_keys incasts todo stmts incast g :
  (∀ r grp, (r, grp) ∈ stmts → desired_ref r) →
  (∀ r, incast = Some r → desired_ref r) →
  check_existing incasts todo stmts incast = Ok g →
  ∀ r grp, (r, grp) ∈ g → desired_ref r.
Proof.
  revert stmts.
  induction todo as [|[[src trg] cast] todo IH]; intros stmts Hstmts Hincast.
  - by intros [= <-].
  - cbn [check_existing].
    destruct (negb (dict_mem (src, trg) incasts)); [|by apply IH].
    destruct incast as [ref|] eqn:Href; [|done].
    destruct (drop cast) as [d|e]; [|done]. rewrite bind_Ok.
    rewrite <- Href in *. subst incast.
    apply IH; [|done].
    apply stmts_append_keys; [by apply Hincast | done].
Qed.

End diff_map_keys.

(** X15.  Every statement group that [_diff_map] returns is keyed by a
    cast of the desired collection: a current cast, dropped or not,
    never gets a group of its own. *)
Theorem diff_map_keys_desired
    (object_diff_map : Cast → Cast → result (list string))
    (self incasts : CastDict) (g : groups) :
  _diff_map object_diff_map self incasts = Ok g →
  ∀ r grp, (r, grp) ∈ g →
           ∃ k, r = (Desired, k) ∧ k ∈ dict_keys incasts.
Proof.
  unfold _diff_map.
  destruct (check_input object_diff_map self incasts [] None)
    as [[stmts incast]|e] eqn:Hinput; [|done].
  rewrite bind_Ok. intros Hrun.
  apply (check_input_keys object_diff_map (λ k, k ∈ dict_keys incasts))
    in Hinput as [Hstmts Hincast].
  - by apply (check_existing_keys (λ k, k ∈ dict_keys incasts)
                incasts self stmts incast g).
  - done.
  - by intros r grp Hin%elem_of_nil.
  - done.
Qed.

Lemma diff_map_keys_desired_witness :
  _diff_map Samples.nodiff Samples.current_it
    [(Samples.key_bt, Samples.cast_bt)]
  = Ok [((Desired, Samples.key_bt),
         [Statements ["CREATE CAST (bigint AS text)" +:+ nl
                        +:+ "    WITHOUT FUNCTION" +:+ nl
                        +:+ "    AS ASSIGNMENT"];
          Statement "DROP CAST (integer AS text)"])]
  ∧ ∀ r grp,
      (r, grp) ∈ [((Desired, Samples.key_bt),
                   [Statements ["CREATE CAST (bigint AS text)" +:+ nl
                                  +:+ "    WITHOUT FUNCTION" +:+ nl
                                  +:+ "    AS ASSIGNMENT"];
                    Statement "DROP CAST (integer AS text)"])] →
      ∃ k, r = (Desired, k)
           ∧ k ∈ dict_keys [(Samples.key_bt, Samples.cast_bt)].
Proof.
  assert (_diff_map Samples.nodiff Samples.current_it
            [(Samples.key_bt, Samples.cast_bt)]
          = Ok [((Desired, Samples.key_bt),
                 [Statements ["CREATE CAST (bigint AS text)" +:+ nl
                                +:+ "    WITHOUT FUNCTION" +:+ nl
                                +:+ "    AS ASSIGNMENT"];
                  Statement "DROP CAST (integer AS text)"])]) as Hrun
    by (vm_compute; reflexivity).
  split; [exact Hrun|].
  exact (diff_map_keys_desired Samples.nodiff Samples.current_it
           [(Samples.key_bt, Samples.cast_bt)] _ Hrun).
Defined.
